(** * Portfolio analytics engine of Nobify (backend/src/services/schedulerService.ts)

    A shallow embedding of the cost-basis tracker, the historical valuation
    estimator, the daily return series builder, the advanced and risk metrics
    calculators and the metrics aggregator, and the properties the
    specification states about them.

    Numbers.  A JavaScript [number] is modelled by an exact rational ([Q]):
    IEEE rounding, overflow and signed zeros are not modelled.  The only
    values a JS computation can produce that no rational stands for are
    Infinity and NaN; on rationals they can only come out of a quotient with
    a zero divisor.  Every quotient of the engine stands directly under a
    guard on its divisor, except the average-cost quotient of
    [calculateHoldingMetrics]; that one is modelled by the partial [JS.div].
    [Math.sqrt] has irrational values: it is a field of the ambient [World].

    Time.  A [Date] is its [getTime()], an integer number of milliseconds.

    Effects.  [async] functions are modelled by what they complete with:
    [Returned v] or [Thrown e].  The ledger and the price oracle are the two
    external collaborators; they are fields of the [World] a function runs
    in. *)

From Stdlib Require Import QArith Qround ZArith List String Bool Lia Lqa.
From Stdlib Require Import Sorted Permutation.
Import ListNotations.

Local Open Scope Q_scope.

(** ** JavaScript values and operators *)

Module JS.

(** [a > b] and [a < b] on numbers. *)
Definition gt (a b : Q) : bool := negb (Qle_bool a b).
Definition lt (a b : Q) : bool := negb (Qle_bool b a).

(** Truthiness of a [number]: every number but zero (and NaN) is truthy. *)
Definition truthy (a : Q) : bool := negb (Qeq_bool a 0).

(** [x || d] where [x : number | null] and [d : number]. *)
Definition or_else (x : option Q) (d : Q) : Q :=
  match x with
  | Some v => if truthy v then v else d
  | None => d
  end.

(** [x || null] where [x : number | undefined]. *)
Definition or_null (x : option Q) : option Q :=
  match x with
  | Some v => if truthy v then Some v else None
  | None => None
  end.

(** A [number | null] read as a number, as the comparison operators do:
    null reads as 0. *)
Definition toNumber (x : option Q) : Q :=
  match x with
  | Some v => v
  | None => 0
  end.

(** [a / b] where nothing guards [b]: [None] when the divisor is zero and
    the JS quotient is Infinity or NaN. *)
Definition div (a b : Q) : option Q :=
  if Qeq_bool b 0 then None else Some (a / b).

(** What an [async] function completes with. *)
Inductive Completion (A : Type) : Type :=
| Returned (a : A)
| Thrown (e : string).
Arguments Returned {A} a.
Arguments Thrown {A} e.

(** [xs.reduce((sum, r) => sum + r, 0)]. *)
Definition sum (xs : list Q) : Q := fold_left (fun sum r => sum + r) xs 0.

(** [xs.length] as a number. *)
Definition length {A} (xs : list A) : Q := inject_Z (Z.of_nat (List.length xs)).

End JS.

Export JS (Completion, Returned, Thrown).

(** ** The ledger *)

Inductive TransactionType : Type :=
| BUY | SELL | TRANSFER_IN | TRANSFER_OUT | STAKE | UNSTAKE | REWARD | AIRDROP.

Definition TransactionType_eqb (a b : TransactionType) : bool :=
  match a, b with
  | BUY, BUY | SELL, SELL | TRANSFER_IN, TRANSFER_IN
  | TRANSFER_OUT, TRANSFER_OUT | STAKE, STAKE | UNSTAKE, UNSTAKE
  | REWARD, REWARD | AIRDROP, AIRDROP => true
  | _, _ => false
  end.

(** The columns of [PortfolioHolding] that the engine reads through a
    transaction's [holding] relation. *)
Record PortfolioHolding : Type := mkHolding {
  userId : string;
  tokenSymbol : string
}.

(** The columns of [Transaction] that the engine reads. *)
Module Transaction.
Record t : Type := mk {
  type : TransactionType;
  amount : Q;
  pricePerToken : option Q;
  totalValue : option Q;
  date : Z;
  holding : PortfolioHolding
}.
End Transaction.

(** ** Cost-basis tracker: [calculateHoldingMetrics] *)

(** The three accumulators of the loop. *)
Record Totals : Type := mkTotals {
  totalCostBasis : Q;
  totalAmount : Q;
  realizedPnL : Q
}.

(** The [data] written back by [prisma.portfolioHolding.update]. *)
Record HoldingData : Type := mkHoldingData {
  currentAmount : Q;
  averageCostBasis : option Q;
  hd_totalCostBasis : Q;
  hd_realizedPnL : Q
}.

(** The guard of line 292: a SELL that finds a positive cost basis. *)
Definition realizes (st : Totals) (transaction : Transaction.t) : bool :=
  TransactionType_eqb (Transaction.type transaction) SELL
  && JS.gt (totalCostBasis st) 0.

(** The divisor of line 293, [totalAmount + amount] with [totalAmount]
    already decremented. *)
Definition avgCostDivisor (st : Totals) (transaction : Transaction.t) : Q :=
  (totalAmount st - Transaction.amount transaction)
  + Transaction.amount transaction.

(** One iteration of the loop over [holding.transactions]; [None] when the
    average-cost quotient has a zero divisor. *)
Definition holdingStep (st : Totals) (transaction : Transaction.t)
  : option Totals :=
  let amount := Transaction.amount transaction in
  let price := JS.or_else (Transaction.pricePerToken transaction) 0 in
  let value := JS.or_else (Transaction.totalValue transaction) (amount * price) in
  match Transaction.type transaction with
  | BUY | TRANSFER_IN | AIRDROP | REWARD =>
      Some {| totalAmount := totalAmount st + amount;
              totalCostBasis := totalCostBasis st + value;
              realizedPnL := realizedPnL st |}
  | SELL | TRANSFER_OUT =>
      let totalAmount' := totalAmount st - amount in
      if realizes st transaction then
        match JS.div (totalCostBasis st) (totalAmount' + amount) with
        | Some avgCostBasis =>
            let costOfSold := avgCostBasis * amount in
            Some {| totalAmount := totalAmount';
                    totalCostBasis := totalCostBasis st - costOfSold;
                    realizedPnL := realizedPnL st + (value - costOfSold) |}
        | None => None
        end
      else
        Some {| totalAmount := totalAmount';
                totalCostBasis := totalCostBasis st;
                realizedPnL := realizedPnL st |}
  | STAKE | UNSTAKE => Some st
  end.

(** The loop, from the accumulators [st]. *)
Fixpoint holdingLoop (st : Totals) (transactions : list Transaction.t)
  : option Totals :=
  match transactions with
  | [] => Some st
  | transaction :: rest =>
      match holdingStep st transaction with
      | Some st' => holdingLoop st' rest
      | None => None
      end
  end.

Definition holdingData (st : Totals) : HoldingData :=
  {| currentAmount := totalAmount st;
     averageCostBasis :=
       if JS.gt (totalAmount st) 0
       then Some (totalCostBasis st / totalAmount st) else None;
     hd_totalCostBasis := totalCostBasis st;
     hd_realizedPnL := realizedPnL st |}.

(** [calculateHoldingMetrics]: [found] is what [findUnique] returns, the
    holding's transactions or null.  The result is the data written back;
    [Returned None] stands for a write of non-finite numbers. *)
Definition calculateHoldingMetrics (found : option (list Transaction.t))
  : Completion (option HoldingData) :=
  match found with
  | None => Thrown "Holding not found"
  | Some transactions =>
      Returned
        (option_map holdingData
           (holdingLoop {| totalCostBasis := 0; totalAmount := 0; realizedPnL := 0 |}
              transactions))
  end.

(** ** The world a computation runs in *)

(** The external collaborators and the ambient runtime.
    - [findMany userId targetDate]: the query of [estimatePortfolioValueAtDate],
      [prisma.transaction.findMany] over the user's transactions dated at
      most [targetDate], by ascending date;
    - [getHistoricalPrice symbol date]: the price oracle, [null] on a miss;
    - [now]: what [new Date()] reads;
    - [Math_sqrt]: the runtime's square root. *)
Record World : Type := mkWorld {
  findMany : string -> Z -> Completion (list Transaction.t);
  getHistoricalPrice : string -> Z -> Completion (option Q);
  now : Z;
  Math_sqrt : Q -> Q
}.

(** A ledger held as a table: the query filters and orders it. *)
Fixpoint insertByDate (transaction : Transaction.t) (sorted : list Transaction.t)
  : list Transaction.t :=
  match sorted with
  | [] => [transaction]
  | t :: rest =>
      if (Transaction.date transaction <=? Transaction.date t)%Z
      then transaction :: sorted
      else t :: insertByDate transaction rest
  end.

Definition orderByDate (transactions : list Transaction.t) : list Transaction.t :=
  fold_right insertByDate [] transactions.

Definition tableFindMany (table : list Transaction.t) (uid : string) (targetDate : Z)
  : Completion (list Transaction.t) :=
  Returned
    (orderByDate
       (filter
          (fun transaction =>
             String.eqb (userId (Transaction.holding transaction)) uid
             && (Transaction.date transaction <=? targetDate)%Z)
          table)).

(** ** Historical valuation estimator: [estimatePortfolioValueAtDate] *)

Record Position : Type := mkPosition {
  amount : Q;
  costBasis : Q
}.

(** [holdingsAtDate]: an object used as a map from symbol to position, its
    own keys kept in the order they were first written, the order in which
    [Object.entries] walks them. *)
Definition HoldingsAtDate : Type := list (string * Position).

Fixpoint lookup (symbol : string) (holdings : HoldingsAtDate) : option Position :=
  match holdings with
  | [] => None
  | (s, p) :: rest => if String.eqb s symbol then Some p else lookup symbol rest
  end.

(** [holdingsAtDate[symbol] = f(holdingsAtDate[symbol])] on a present key. *)
Fixpoint update (symbol : string) (f : Position -> Position)
  (holdings : HoldingsAtDate) : HoldingsAtDate :=
  match holdings with
  | [] => []
  | (s, p) :: rest =>
      if String.eqb s symbol then (s, f p) :: rest
      else (s, p) :: update symbol f rest
  end.

(** [if (!holdingsAtDate[symbol]) holdingsAtDate[symbol] = {amount: 0, costBasis: 0}]. *)
Definition ensure (symbol : string) (holdings : HoldingsAtDate) : HoldingsAtDate :=
  match lookup symbol holdings with
  | Some _ => holdings
  | None => holdings ++ [(symbol, {| amount := 0; costBasis := 0 |})]
  end.

(** The position the replay works on for [symbol]: the recorded one, or the
    zero position a first transaction starts from. *)
Definition positionOf (symbol : string) (h : HoldingsAtDate) : Position :=
  match lookup symbol h with
  | Some p => p
  | None => {| amount := 0; costBasis := 0 |}
  end.

(** What an inflow of [txAmount] worth [value] makes of a position. *)
Definition inflow (txAmount value : Q) (p : Position) : Position :=
  {| amount := amount p + txAmount; costBasis := costBasis p + value |}.

(** What an outflow of [txAmount] makes of a position (lines 792-797). *)
Definition outflow (txAmount : Q) (p : Position) : Position :=
  let amount' := amount p - txAmount in
  if JS.gt amount' 0 then
    let ratio := txAmount / (amount' + txAmount) in
    {| amount := amount'; costBasis := costBasis p * (1 - ratio) |}
  else
    {| amount := amount'; costBasis := costBasis p |}.

(** One iteration of the replay loop. *)
Definition replayStep (holdingsAtDate : HoldingsAtDate) (transaction : Transaction.t)
  : HoldingsAtDate :=
  let symbol := tokenSymbol (Transaction.holding transaction) in
  let holdingsAtDate := ensure symbol holdingsAtDate in
  let txAmount := Transaction.amount transaction in
  let value :=
    JS.or_else (Transaction.totalValue transaction)
      (JS.or_else (Transaction.pricePerToken transaction) 0 * txAmount) in
  match Transaction.type transaction with
  | BUY | TRANSFER_IN | AIRDROP | REWARD =>
      update symbol (inflow txAmount value) holdingsAtDate
  | SELL | TRANSFER_OUT =>
      update symbol (outflow txAmount) holdingsAtDate
  | STAKE | UNSTAKE => holdingsAtDate
  end.

Definition replay (transactions : list Transaction.t) : HoldingsAtDate :=
  fold_left replayStep transactions [].

(** What the [try]/[catch] of lines 807-818 adds to [totalValue] for one
    entry: the priced amount, or the cost basis when the oracle has no price
    or throws. *)
Definition contribution (w : World) (targetDate : Z) (symbol : string)
  (holding : Position) : Q :=
  match getHistoricalPrice w symbol targetDate with
  | Returned (Some historicalPrice) =>
      if JS.truthy historicalPrice
      then amount holding * historicalPrice
      else costBasis holding
  | Returned None => costBasis holding
  | Thrown _ => costBasis holding
  end.

(** The valuation loop over [Object.entries(holdingsAtDate)]. *)
Definition valuationStep (w : World) (targetDate : Z) (totalValue : Q)
  (entry : string * Position) : Q :=
  let '(symbol, holding) := entry in
  if JS.gt (amount holding) 0
  then totalValue + contribution w targetDate symbol holding
  else totalValue.

Definition valuation (w : World) (targetDate : Z) (holdingsAtDate : HoldingsAtDate) : Q :=
  fold_left (valuationStep w targetDate) holdingsAtDate 0.

Definition estimatePortfolioValueAtDate (w : World) (uid : string) (targetDate : Z)
  : Completion Q :=
  match findMany w uid targetDate with
  | Thrown e => Thrown e
  | Returned transactions => Returned (valuation w targetDate (replay transactions))
  end.

(** ** Daily return series builder: [calculateDailyReturns] *)

Record DailyValue : Type := mkDailyValue {
  date : Z;
  value : Q;
  return_ : Q
}.

Definition MS_PER_DAY : Z := 24 * 60 * 60 * 1000.

(** One iteration of the loop, for day [i]; the state is [dailyValues] and
    [previousValue]. *)
Definition dailyStep (w : World) (uid : string) (startDate : Z)
  (st : list DailyValue * option Q) (i : nat) : list DailyValue * option Q :=
  let '(dailyValues, previousValue) := st in
  let currentDate := (startDate + Z.of_nat i * MS_PER_DAY)%Z in
  match estimatePortfolioValueAtDate w uid currentDate with
  | Returned portfolioValue =>
      let dailyReturn :=
        match previousValue with
        | Some previous =>
            if JS.gt previous 0
            then ((portfolioValue - previous) / previous) * 100
            else 0
        | None => 0
        end in
      (dailyValues ++ [{| date := currentDate; value := portfolioValue;
                          return_ := dailyReturn |}],
       Some portfolioValue)
  | Thrown _ => st
  end.

Definition calculateDailyReturns (w : World) (uid : string) (days : nat)
  : list DailyValue :=
  let endDate := now w in
  let startDate := (endDate - Z.of_nat days * MS_PER_DAY)%Z in
  fst (fold_left (dailyStep w uid startDate) (seq 0 days) ([], None)).

(** ** Advanced metrics calculator *)

Record Period : Type := mkPeriod {
  start : Z;
  end_ : Z
}.

(** The variables of the loop of [calculateMaxDrawdown]. *)
Record DrawdownState : Type := mkDrawdownState {
  dd_maxDrawdown : Q;
  dd_maxDrawdownPeriod : option Period;
  dd_peak : Q;
  dd_peakDate : Z
}.

(** The running peak after seeing [day]. *)
Definition peakAfter (st : DrawdownState) (day : DailyValue) : Q :=
  if JS.gt (value day) (dd_peak st) then value day else dd_peak st.

(** The drawdown observed at [day] against the running [peak]. *)
Definition drawdownAt (peak : Q) (day : DailyValue) : Q :=
  if JS.gt peak 0 then ((peak - value day) / peak) * 100 else 0.

Definition drawdownStep (st : DrawdownState) (day : DailyValue) : DrawdownState :=
  let peak := peakAfter st day in
  let peakDate := if JS.gt (value day) (dd_peak st) then date day else dd_peakDate st in
  let drawdown := drawdownAt peak day in
  if JS.gt drawdown (dd_maxDrawdown st) then
    {| dd_maxDrawdown := drawdown;
       dd_maxDrawdownPeriod := Some {| start := peakDate; end_ := date day |};
       dd_peak := peak; dd_peakDate := peakDate |}
  else
    {| dd_maxDrawdown := dd_maxDrawdown st;
       dd_maxDrawdownPeriod := dd_maxDrawdownPeriod st;
       dd_peak := peak; dd_peakDate := peakDate |}.

(** [calculateMaxDrawdown]: the pair [{ maxDrawdown, maxDrawdownPeriod }]. *)
Definition calculateMaxDrawdown (dailyReturns : list DailyValue)
  : option Q * option Period :=
  match dailyReturns with
  | [] => (None, None)
  | first :: _ =>
      let st :=
        fold_left drawdownStep dailyReturns
          {| dd_maxDrawdown := 0; dd_maxDrawdownPeriod := None;
             dd_peak := value first; dd_peakDate := date first |} in
      (if JS.gt (dd_maxDrawdown st) 0 then Some (dd_maxDrawdown st) else None,
       dd_maxDrawdownPeriod st)
  end.

(** [{ date, return }], the shape of [bestDay] and [worstDay]. *)
Record DayReturn : Type := mkDayReturn {
  day_date : Z;
  day_return : Q
}.

Record AdvancedPortfolioMetrics : Type := mkAdvanced {
  sharpeRatio : option Q;
  volatility : option Q;
  maxDrawdown : option Q;
  maxDrawdownPeriod : option Period;
  averageReturn : Q;
  winRate : Q;
  bestDay : option DayReturn;
  worstDay : option DayReturn;
  totalTradingDays : Q
}.

(** The structure returned for an empty series, which is also the fallback
    of the aggregator. *)
Definition emptyAdvancedMetrics : AdvancedPortfolioMetrics :=
  {| sharpeRatio := None; volatility := None; maxDrawdown := None;
     maxDrawdownPeriod := None; averageReturn := 0; winRate := 0;
     bestDay := None; worstDay := None; totalTradingDays := 0 |}.

(** [Math.max(...xs)] and [Math.min(...xs)] of a series whose first element
    is [x]. *)
Definition Math_max (x : Q) (xs : list Q) : Q :=
  fold_left (fun m r => if JS.gt r m then r else m) xs x.
Definition Math_min (x : Q) (xs : list Q) : Q :=
  fold_left (fun m r => if JS.lt r m then r else m) xs x.

(** [xs.indexOf(x)], counting from [i]; [None] stands for -1. *)
Fixpoint indexOfFrom (i : nat) (x : Q) (xs : list Q) : option nat :=
  match xs with
  | [] => None
  | y :: rest => if Qeq_bool y x then Some i else indexOfFrom (S i) x rest
  end.
Definition indexOf (x : Q) (xs : list Q) : option nat := indexOfFrom 0 x xs.

(** [index >= 0 ? { date: dailyReturns[index].date, return: returns[index] } : null]. *)
Definition dayAt (dailyReturns : list DailyValue) (returns : list Q)
  (index : option nat) : option DayReturn :=
  match index with
  | Some i =>
      match nth_error dailyReturns i, nth_error returns i with
      | Some d, Some r => Some {| day_date := date d; day_return := r |}
      | _, _ => None
      end
  | None => None
  end.

(** The body of [calculateAdvancedMetrics] once the series is there. *)
Definition advancedMetricsOf (sqrt : Q -> Q) (dailyReturns : list DailyValue)
  : AdvancedPortfolioMetrics :=
  match dailyReturns with
  | [] => emptyAdvancedMetrics
  | first :: _ =>
      let returns := map return_ dailyReturns in
      let averageReturn := JS.sum returns / JS.length returns in
      let variance :=
        fold_left
          (fun sum r => sum + (r - averageReturn) * (r - averageReturn))
          returns 0 / JS.length returns in
      let volatility := sqrt variance * sqrt 365 in
      let sharpeRatio :=
        if JS.gt volatility 0 then Some ((averageReturn * 365) / volatility) else None in
      let '(maxDrawdown, maxDrawdownPeriod) := calculateMaxDrawdown dailyReturns in
      let winningDays := JS.length (filter (fun r => JS.gt r 0) returns) in
      let winRate := (winningDays / JS.length returns) * 100 in
      let bestDayIndex := indexOf (Math_max (return_ first) returns) returns in
      let worstDayIndex := indexOf (Math_min (return_ first) returns) returns in
      {| sharpeRatio := sharpeRatio;
         volatility := Some volatility;
         maxDrawdown := maxDrawdown;
         maxDrawdownPeriod := maxDrawdownPeriod;
         averageReturn := averageReturn * 365;
         winRate := winRate;
         bestDay := dayAt dailyReturns returns bestDayIndex;
         worstDay := dayAt dailyReturns returns worstDayIndex;
         totalTradingDays := JS.length returns |}
  end.

Definition calculateAdvancedMetrics (w : World) (uid : string)
  : AdvancedPortfolioMetrics :=
  advancedMetricsOf (Math_sqrt w) (calculateDailyReturns w uid 365).

(** ** Risk metrics calculator *)

Record RiskMetrics : Type := mkRisk {
  valueAtRisk95 : option Q;
  valueAtRisk99 : option Q;
  conditionalValueAtRisk : option Q;
  downsideDeviation : option Q;
  sortinoRatio : option Q
}.

Definition emptyRiskMetrics : RiskMetrics :=
  {| valueAtRisk95 := None; valueAtRisk99 := None;
     conditionalValueAtRisk := None; downsideDeviation := None;
     sortinoRatio := None |}.

(** [xs.sort(compare)]: the sorted array, by stable insertion. *)
Fixpoint sortInsert (compare : Q -> Q -> Q) (x : Q) (sorted : list Q) : list Q :=
  match sorted with
  | [] => [x]
  | y :: rest =>
      if JS.gt (compare x y) 0 then y :: sortInsert compare x rest
      else x :: sorted
  end.
Definition Array_sort (compare : Q -> Q -> Q) (xs : list Q) : list Q :=
  fold_right (sortInsert compare) [] xs.

(** [dailyReturns.map(d => d.return).sort((a, b) => a - b)]. *)
Definition sortedReturns (dailyReturns : list DailyValue) : list Q :=
  Array_sort (fun a b => a - b) (map return_ dailyReturns).

(** [Math.floor(returns.length * 0.05)] and [Math.floor(returns.length * 0.01)]. *)
Definition var95Index (returns : list Q) : Z := Qfloor (JS.length returns * 0.05).
Definition var99Index (returns : list Q) : Z := Qfloor (JS.length returns * 0.01).

(** [xs[i]] for an integer [i >= 0]; [None] stands for undefined. *)
Definition at_ (xs : list Q) (i : Z) : option Q := nth_error xs (Z.to_nat i).

(** The body of [calculateRiskMetrics] once the series is there. *)
Definition riskMetricsOf (sqrt : Q -> Q) (dailyReturns : list DailyValue)
  : RiskMetrics :=
  match dailyReturns with
  | [] => emptyRiskMetrics
  | _ :: _ =>
      let returns := sortedReturns dailyReturns in
      let averageReturn := JS.sum returns / JS.length returns in
      let valueAtRisk95 := JS.or_null (at_ returns (var95Index returns)) in
      let valueAtRisk99 := JS.or_null (at_ returns (var99Index returns)) in
      let worstReturns := firstn (Z.to_nat (var95Index returns + 1)) returns in
      let conditionalValueAtRisk :=
        if JS.gt (JS.length worstReturns) 0
        then Some (JS.sum worstReturns / JS.length worstReturns) else None in
      let negativeReturns := filter (fun r => JS.lt r 0) returns in
      let downsideDeviation :=
        if JS.gt (JS.length negativeReturns) 0
        then Some (sqrt (fold_left (fun sum r => sum + r * r) negativeReturns 0
                         / JS.length negativeReturns))
        else None in
      let sortinoRatio :=
        match downsideDeviation with
        | Some dd =>
            if JS.truthy dd && JS.gt dd 0
            then Some ((averageReturn * 365) / (dd * sqrt 365)) else None
        | None => None
        end in
      {| valueAtRisk95 := valueAtRisk95;
         valueAtRisk99 := valueAtRisk99;
         conditionalValueAtRisk := conditionalValueAtRisk;
         downsideDeviation := downsideDeviation;
         sortinoRatio := sortinoRatio |}
  end.

Definition calculateRiskMetrics (w : World) (uid : string) : RiskMetrics :=
  riskMetricsOf (Math_sqrt w) (calculateDailyReturns w uid 365).

(** ** Metrics aggregator: [getEnhancedPortfolioMetrics] *)

Module Summary.
Record t : Type := mk {
  totalValue : Q;
  totalCostBasis : Q;
  totalUnrealizedPnL : Q;
  totalRealizedPnL : Q;
  totalPercentageChange : Q;
  holdingsCount : Q
}.
End Summary.

Record TimeBasedPerformance : Type := mkTimeBasedPerformance {
  period : string;
  startValue : Q;
  endValue : Q;
  absoluteReturn : Q;
  percentageReturn : Q;
  startDate : Z;
  endDate : Z
}.

Record BenchmarkComparison : Type := mkBenchmarkComparison {
  portfolioReturn : Q;
  benchmarkReturn : Q;
  alpha : Q;
  beta : option Q;
  correlation : option Q;
  outperformance : Q;
  benchmarkName : string
}.

Record EnhancedPortfolioMetrics : Type := mkEnhanced {
  summary : Summary.t;
  timeBasedPerformance : list TimeBasedPerformance;
  advancedMetrics : AdvancedPortfolioMetrics;
  benchmarkComparisons : list BenchmarkComparison;
  riskMetrics : RiskMetrics
}.

(** What each call made by the aggregator completes with: the five calls
    handed to [Promise.all], and the call of [getPortfolioSummary] made in
    the [catch] block. *)
Record Calls : Type := mkCalls {
  call_getPortfolioSummary : Completion Summary.t;
  call_calculateTimeBasedPerformance : Completion (list TimeBasedPerformance);
  call_calculateAdvancedMetrics : Completion AdvancedPortfolioMetrics;
  call_calculateRiskMetrics : Completion RiskMetrics;
  call_calculateBenchmarkComparisons : Completion (list BenchmarkComparison);
  call_getPortfolioSummary_in_catch : Completion Summary.t
}.

(** [await Promise.all([...])] of the five calls: the five results, or the
    rejection of one that threw. *)
Definition Promise_all (calls : Calls)
  : Completion (Summary.t * list TimeBasedPerformance * AdvancedPortfolioMetrics
                * RiskMetrics * list BenchmarkComparison) :=
  match call_getPortfolioSummary calls,
        call_calculateTimeBasedPerformance calls,
        call_calculateAdvancedMetrics calls,
        call_calculateRiskMetrics calls,
        call_calculateBenchmarkComparisons calls with
  | Returned s, Returned t, Returned a, Returned r, Returned b =>
      Returned (s, t, a, r, b)
  | Thrown e, _, _, _, _ => Thrown e
  | _, Thrown e, _, _, _ => Thrown e
  | _, _, Thrown e, _, _ => Thrown e
  | _, _, _, Thrown e, _ => Thrown e
  | _, _, _, _, Thrown e => Thrown e
  end.

(** The structure built in the [catch] block around [summary]. *)
Definition fallbackMetrics (summary : Summary.t) : EnhancedPortfolioMetrics :=
  {| summary := summary;
     timeBasedPerformance := [];
     advancedMetrics := emptyAdvancedMetrics;
     benchmarkComparisons := [];
     riskMetrics := emptyRiskMetrics |}.

Definition getEnhancedPortfolioMetrics (calls : Calls)
  : Completion EnhancedPortfolioMetrics :=
  match Promise_all calls with
  | Returned (summary, timeBasedPerformance, advancedMetrics, riskMetrics,
              benchmarkComparisons) =>
      Returned
        {| summary := summary;
           timeBasedPerformance := timeBasedPerformance;
           advancedMetrics := advancedMetrics;
           benchmarkComparisons := benchmarkComparisons;
           riskMetrics := riskMetrics |}
  | Thrown _ =>
      match call_getPortfolioSummary_in_catch calls with
      | Returned summary => Returned (fallbackMetrics summary)
      | Thrown e => Thrown e
      end
  end.

(** The calls as the engine makes them for [uid]: the two calculators
    embedded above, and the three functions that are not, whose completions
    are given. *)
Definition callsFor (w : World) (uid : string)
  (getPortfolioSummary getPortfolioSummaryAgain : Completion Summary.t)
  (calculateTimeBasedPerformance : Completion (list TimeBasedPerformance))
  (calculateBenchmarkComparisons : Completion (list BenchmarkComparison)) : Calls :=
  {| call_getPortfolioSummary := getPortfolioSummary;
     call_calculateTimeBasedPerformance := calculateTimeBasedPerformance;
     call_calculateAdvancedMetrics := Returned (calculateAdvancedMetrics w uid);
     call_calculateRiskMetrics := Returned (calculateRiskMetrics w uid);
     call_calculateBenchmarkComparisons := calculateBenchmarkComparisons;
     call_getPortfolioSummary_in_catch := getPortfolioSummaryAgain |}.

(** ** Ledgers and worlds of the scenarios *)

Definition DAY0 : Z := 1700000000000.

Definition aliceBTC : PortfolioHolding := {| userId := "alice"; tokenSymbol := "BTC" |}.
Definition aliceETH : PortfolioHolding := {| userId := "alice"; tokenSymbol := "ETH" |}.

(** Scenario A: BUY 1.0 BTC for $40,000, then SELL 0.5 BTC for $25,000. *)
Definition scenarioA : list Transaction.t :=
  [ Transaction.mk BUY 1 (Some 40000) (Some 40000) DAY0 aliceBTC;
    Transaction.mk SELL 0.5 (Some 50000) (Some 25000) (DAY0 + MS_PER_DAY) aliceBTC ].

(** A holding bought, transferred out in full, then sold once more. *)
Definition soldAfterTransferOut : list Transaction.t :=
  [ Transaction.mk BUY 1 (Some 100) (Some 100) DAY0 aliceBTC;
    Transaction.mk TRANSFER_OUT 1 None None (DAY0 + 1) aliceBTC ].


(** Scenario D: ETH bought for $5,000, BTC bought for $100. *)
Definition scenarioD : list Transaction.t :=
  [ Transaction.mk BUY 2 None (Some 5000) DAY0 aliceETH;
    Transaction.mk BUY 1 (Some 100) None DAY0 aliceBTC ].

(** A square root for the example worlds: [Math.sqrt] rounded down to six
    decimals. *)
Definition sqrtMicro (x : Q) : Q :=
  inject_Z (Z.sqrt (Qfloor (x * 1000000000000))) / 1000000.

(** The oracle of scenario D: a miss for ETH, $30 for BTC. *)
Definition oracleD (symbol : string) (d : Z) : Completion (option Q) :=
  if String.eqb symbol "BTC" then Returned (Some 30) else Returned None.

Definition tableWorld (table : list Transaction.t)
  (oracle : string -> Z -> Completion (option Q)) : World :=
  {| findMany := tableFindMany table;
     getHistoricalPrice := oracle;
     now := DAY0 + 400 * MS_PER_DAY;
     Math_sqrt := sqrtMicro |}.

(** A world whose ledger has no transaction at all. *)
Definition emptyWorld : World := tableWorld [] oracleD.

Definition worldD : World := tableWorld scenarioD oracleD.

(** ** Current prices: [updateHoldingPrices] and [getPortfolioSummary] *)

(** The columns of a [PortfolioHolding] row that the two functions read. *)
Module Holding.
Record t : Type := mk {
  id : string;
  tokenSymbol : string;
  currentAmount : Q;
  totalCostBasis : option Q;
  currentValue : option Q;
  unrealizedPnL : option Q;
  realizedPnL : option Q
}.
End Holding.

(** The [data] of the update of lines 379-389, dates apart. *)
Record PriceUpdate : Type := mkPriceUpdate {
  pu_currentPrice : option Q;
  pu_currentValue : option Q;
  pu_unrealizedPnL : option Q;
  pu_percentageChange : option Q
}.

(** Lines 365-377 and 382: what is written for a holding priced at
    [currentPrice]. *)
Definition priceUpdateOf (holding : Holding.t) (currentPrice : Q) : PriceUpdate :=
  let '(currentValue, unrealizedPnL, percentageChange) :=
    if JS.gt currentPrice 0 && JS.gt (Holding.currentAmount holding) 0 then
      let currentValue := Holding.currentAmount holding * currentPrice in
      match Holding.totalCostBasis holding with
      | Some totalCostBasis =>
          if JS.truthy totalCostBasis && JS.gt totalCostBasis 0 then
            let unrealizedPnL := currentValue - totalCostBasis in
            (Some currentValue, Some unrealizedPnL,
             Some ((unrealizedPnL / totalCostBasis) * 100))
          else (Some currentValue, None, None)
      | None => (Some currentValue, None, None)
      end
    else (None, None, None) in
  {| pu_currentPrice := if JS.gt currentPrice 0 then Some currentPrice else None;
     pu_currentValue := currentValue;
     pu_unrealizedPnL := unrealizedPnL;
     pu_percentageChange := percentageChange |}.

(** The counters of [updateHoldingPrices], and the updates that went
    through, by holding id. *)
Record PriceUpdateStats : Type := mkPriceUpdateStats {
  updated : nat;
  failed : nat;
  errors : list string;
  written : list (string * PriceUpdate)
}.

(** One iteration of the loop over the holdings: [prices] is the record of
    fetched prices read at a key, [update] what the database update for a
    holding id completes with. *)
Definition priceStep (toLowerCase : string -> string)
  (prices : string -> option Q)
  (update : string -> PriceUpdate -> Completion unit)
  (st : PriceUpdateStats) (holding : Holding.t) : PriceUpdateStats :=
  match prices (toLowerCase (Holding.tokenSymbol holding)) with
  | None =>
      {| updated := updated st;
         failed := S (failed st);
         errors := errors st
                   ++ [("No price data found for " ++ Holding.tokenSymbol holding)%string];
         written := written st |}
  | Some currentPrice =>
      let data := priceUpdateOf holding currentPrice in
      match update (Holding.id holding) data with
      | Returned _ =>
          {| updated := S (updated st);
             failed := failed st;
             errors := errors st;
             written := written st ++ [(Holding.id holding, data)] |}
      | Thrown e =>
          {| updated := updated st;
             failed := S (failed st);
             errors := errors st
                       ++ [("Failed to update " ++ Holding.tokenSymbol holding
                            ++ ": " ++ e)%string];
             written := written st |}
      end
  end.

(** [updateHoldingPrices]: [found] is what the query for the user's holdings
    completes with, [fetched] what the price fetch completes with. *)
Definition updateHoldingPrices (toLowerCase : string -> string)
  (found : Completion (list Holding.t))
  (fetched : Completion (string -> option Q))
  (update : string -> PriceUpdate -> Completion unit)
  : Completion PriceUpdateStats :=
  match found with
  | Thrown e => Thrown e
  | Returned [] =>
      Returned {| updated := 0; failed := 0; errors := []; written := [] |}
  | Returned holdings =>
      match fetched with
      | Returned prices =>
          Returned
            (fold_left (priceStep toLowerCase prices update) holdings
               {| updated := 0; failed := 0; errors := []; written := [] |})
      | Thrown e =>
          Returned
            {| updated := 0;
               failed := List.length holdings;
               errors := [("Failed to fetch prices: " ++ e)%string];
               written := [] |}
      end
  end.

(** The totals of [getPortfolioSummary] over the holdings it has read
    (lines 422-446). *)
Definition summaryOf (holdings : list Holding.t) : Summary.t :=
  let totalValue :=
    fold_left (fun acc h => acc + JS.or_else (Holding.currentValue h) 0) holdings 0 in
  let totalCostBasis :=
    fold_left (fun acc h => acc + JS.or_else (Holding.totalCostBasis h) 0) holdings 0 in
  let totalUnrealizedPnL :=
    fold_left (fun acc h => acc + JS.or_else (Holding.unrealizedPnL h) 0) holdings 0 in
  let totalRealizedPnL :=
    fold_left (fun acc h => acc + JS.or_else (Holding.realizedPnL h) 0) holdings 0 in
  {| Summary.totalValue := totalValue;
     Summary.totalCostBasis := totalCostBasis;
     Summary.totalUnrealizedPnL := totalUnrealizedPnL;
     Summary.totalRealizedPnL := totalRealizedPnL;
     Summary.totalPercentageChange :=
       if JS.gt totalCostBasis 0
       then (totalUnrealizedPnL / totalCostBasis) * 100 else 0;
     Summary.holdingsCount := JS.length holdings |}.

(** [getPortfolioSummary]: [priceUpdateStats] is what the call of
    [updateHoldingPrices] completes with, [found] what the query for the
    holdings completes with. *)
Definition getPortfolioSummary (priceUpdateStats : Completion PriceUpdateStats)
  (found : Completion (list Holding.t))
  : Completion (Summary.t * PriceUpdateStats) :=
  match priceUpdateStats with
  | Thrown e => Thrown e
  | Returned stats =>
      match found with
      | Thrown e => Thrown e
      | Returned holdings => Returned (summaryOf holdings, stats)
      end
  end.

(** A holding whose derived fields are all there and agree: the unrealized
    P&L is the current value minus the cost basis. *)
Definition consistentHolding (h : Holding.t) : Prop :=
  exists v c u,
    Holding.currentValue h = Some v
    /\ Holding.totalCostBasis h = Some c
    /\ Holding.unrealizedPnL h = Some u
    /\ u == v - c.

(** The last element of a list. *)
Definition lastOf {A} (l : list A) : option A := hd_error (rev l).

(** ** Time-based performance: [calculateTimeBasedPerformance] *)

(** The periods of lines 715-722.  [startOfYear] is the time of
    [new Date(now.getFullYear(), 0, 1)], which depends on the calendar and
    the time zone of the runtime. *)
Definition periods (w : World) (startOfYear : Z) : list (string * Z) :=
  [ ("1D"%string, 1%Z); ("7D"%string, 7%Z); ("30D"%string, 30%Z);
    ("90D"%string, 90%Z); ("1Y"%string, 365%Z);
    ("YTD"%string, ((now w - startOfYear) / (1000 * 60 * 60 * 24))%Z) ].

(** The start date of a period of [days] days. *)
Definition periodStart (w : World) (days : Z) : Z :=
  (now w - days * 24 * 60 * 60 * 1000)%Z.

(** The loop over the periods, [results] being what was pushed so far;
    [getSummary name] is what the call of [getPortfolioSummary] made for
    the period [name] completes with. *)
Fixpoint timeBasedLoop (w : World) (uid : string)
  (getSummary : string -> Completion Summary.t)
  (remaining : list (string * Z)) (results : list TimeBasedPerformance)
  : Completion (list TimeBasedPerformance) :=
  match remaining with
  | [] => Returned results
  | (name, days) :: rest =>
      let startDate := periodStart w days in
      match estimatePortfolioValueAtDate w uid startDate with
      | Thrown e => Thrown e
      | Returned startValue =>
          match getSummary name with
          | Thrown e => Thrown e
          | Returned currentSummary =>
              let endValue := Summary.totalValue currentSummary in
              let absoluteReturn := endValue - startValue in
              let percentageReturn :=
                if JS.gt startValue 0
                then (absoluteReturn / startValue) * 100 else 0 in
              timeBasedLoop w uid getSummary rest
                (results
                 ++ [{| period := name; startValue := startValue;
                        endValue := endValue; absoluteReturn := absoluteReturn;
                        percentageReturn := percentageReturn;
                        startDate := startDate; endDate := now w |}])
          end
      end
  end.

Definition calculateTimeBasedPerformance (w : World) (uid : string)
  (startOfYear : Z) (getSummary : string -> Completion Summary.t)
  : Completion (list TimeBasedPerformance) :=
  timeBasedLoop w uid getSummary (periods w startOfYear) [].

(** ** Benchmark comparator: [calculateBenchmarkComparisons] *)

(** [calculateCorrelationAndBeta]: the pair [{ correlation, beta }]. *)
Definition calculateCorrelationAndBeta (portfolioReturns : list DailyValue)
  (benchmark : string) : option Q * option Q :=
  (None, None).

(** One iteration of the loop over the benchmarks.  [portfolioReturn] is
    [None] when it is not finite; the comparisons are [None] once one of
    them holds a number that is not finite. *)
Definition benchmarkStep (w : World) (portfolioReturns : list DailyValue)
  (first last : DailyValue) (portfolioReturn : option Q)
  (comparisons : option (list BenchmarkComparison)) (benchmark : string)
  : option (list BenchmarkComparison) :=
  match getHistoricalPrice w benchmark (date first) with
  | Thrown _ => comparisons
  | Returned startPrice =>
      match getHistoricalPrice w benchmark (date last) with
      | Thrown _ => comparisons
      | Returned endPrice =>
          match startPrice, endPrice with
          | Some startPrice, Some endPrice =>
              if JS.truthy startPrice && JS.truthy endPrice && JS.gt startPrice 0
              then
                match comparisons, portfolioReturn with
                | Some comparisons, Some portfolioReturn =>
                    let benchmarkReturn :=
                      ((endPrice - startPrice) / startPrice) * 100 in
                    let outperformance := portfolioReturn - benchmarkReturn in
                    let '(correlation, beta) :=
                      calculateCorrelationAndBeta portfolioReturns benchmark in
                    let alpha :=
                      portfolioReturn - benchmarkReturn * JS.or_else beta 1 in
                    Some (comparisons
                          ++ [{| portfolioReturn := portfolioReturn;
                                 benchmarkReturn := benchmarkReturn;
                                 alpha := alpha; beta := beta;
                                 correlation := correlation;
                                 outperformance := outperformance;
                                 benchmarkName := benchmark |}])
                | _, _ => None
                end
              else comparisons
          | _, _ => comparisons
          end
      end
  end.

(** The body of [calculateBenchmarkComparisons] once the series is there. *)
Definition benchmarkComparisonsOf (w : World) (portfolioReturns : list DailyValue)
  : option (list BenchmarkComparison) :=
  match portfolioReturns, lastOf portfolioReturns with
  | first :: _, Some last =>
      let portfolioReturn :=
        option_map (fun q => q * 100)
          (JS.div (value last - value first) (value first)) in
      fold_left (benchmarkStep w portfolioReturns first last portfolioReturn)
        ["BTC"%string; "ETH"%string] (Some [])
  | _, _ => Some []
  end.

Definition calculateBenchmarkComparisons (w : World) (uid : string)
  : option (list BenchmarkComparison) :=
  benchmarkComparisonsOf w (calculateDailyReturns w uid 365).

(** ** Transaction analytics: [getTransactionAnalytics] *)

(** The columns of a transaction that the analytics read. *)
Module LedgerRow.
Record t : Type := mk {
  type : TransactionType;
  totalValue : option Q;
  exchangeName : option string;
  date : Z
}.
End LedgerRow.

(** An object used as a counter by key: its keys in the order they were
    first written, each with its count.  [eqb] compares keys.  (JavaScript
    enumerates keys that read as array indices before the others; no
    property proved below depends on the order of the keys.) *)
Definition Counts (K : Type) : Type := list (K * nat).

(** [counts[key]], undefined for a key never written. *)
Fixpoint countOf {K} (eqb : K -> K -> bool) (key : K) (counts : Counts K)
  : option nat :=
  match counts with
  | [] => None
  | (k, n) :: rest => if eqb k key then Some n else countOf eqb key rest
  end.

(** [acc[key] = (acc[key] || 0) + 1]. *)
Fixpoint increment {K} (eqb : K -> K -> bool) (key : K) (counts : Counts K)
  : Counts K :=
  match counts with
  | [] => [(key, 1%nat)]
  | (k, n) :: rest =>
      if eqb k key then (k, S n) :: rest
      else (k, n) :: increment eqb key rest
  end.

(** [if (!counts[key]) counts[key] = 0]. *)
Definition ensureCounted {K} (eqb : K -> K -> bool) (counts : Counts K) (key : K)
  : Counts K :=
  match countOf eqb key counts with
  | Some _ => counts
  | None => counts ++ [(key, 0%nat)]
  end.

(** [Object.values(TransactionType)]. *)
Definition allTransactionTypes : list TransactionType :=
  [BUY; SELL; TRANSFER_IN; TRANSFER_OUT; STAKE; UNSTAKE; REWARD; AIRDROP].

(** [transactionsByType], lines 1334-1344. *)
Definition transactionsByTypeOf (transactions : list LedgerRow.t)
  : Counts TransactionType :=
  fold_left (ensureCounted TransactionType_eqb) allTransactionTypes
    (fold_left (fun acc tx => increment TransactionType_eqb (LedgerRow.type tx) acc)
       transactions []).

(** Truthiness of a [string | null]: null and the empty string are falsy. *)
Definition truthyString (x : option string) : bool :=
  match x with
  | Some s => negb (String.eqb s "")
  | None => false
  end.

(** [exchangeCounts], lines 1350-1355. *)
Definition exchangeCountsOf (transactions : list LedgerRow.t) : Counts string :=
  fold_left
    (fun acc tx =>
       match LedgerRow.exchangeName tx with
       | Some name =>
           if truthyString (Some name) then increment String.eqb name acc else acc
       | None => acc
       end)
    transactions [].

(** [(a, b) => counts[a] > counts[b] ? a : b] on two keys of [counts]. *)
Definition busier (counts : Counts string) (a b : string) : string :=
  match countOf String.eqb a counts, countOf String.eqb b counts with
  | Some x, Some y => if (y <? x)%nat then a else b
  | _, _ => b
  end.

(** [Object.keys(counts).length > 0 ? Object.keys(counts).reduce(busier) : null]. *)
Definition mostActiveOf (counts : Counts string) : option string :=
  match map fst counts with
  | [] => None
  | first :: rest => Some (fold_left (busier counts) rest first)
  end.

Record TransactionFrequency : Type := mkFrequency {
  daily : Q;
  weekly : Q;
  monthly : Q
}.

Record TransactionAnalytics : Type := mkAnalytics {
  totalTransactions : Q;
  transactionsByType : Counts TransactionType;
  totalVolume : Q;
  averageTransactionSize : Q;
  mostActiveExchange : option string;
  transactionFrequency : TransactionFrequency;
  dateRange : option Z * option Z
}.

(** [Math.max(1, Math.ceil(x))]. *)
Definition atLeastOne (x : Q) : Q := inject_Z (Z.max 1 (Qceiling x)).

(** The body of [getTransactionAnalytics] once the transactions, ordered by
    ascending date, are there. *)
Definition transactionAnalyticsOf (transactions : list LedgerRow.t) : TransactionAnalytics :=
  match transactions, lastOf transactions with
  | first :: _, Some last =>
      let totalVolume :=
        fold_left (fun sum tx => sum + JS.or_else (LedgerRow.totalValue tx) 0)
          transactions 0 in
      let averageTransactionSize := totalVolume / JS.length transactions in
      let exchangeCounts := exchangeCountsOf transactions in
      let daysDiff :=
        atLeastOne (inject_Z (LedgerRow.date last - LedgerRow.date first)
                    / inject_Z (1000 * 60 * 60 * 24)) in
      let weeksDiff := atLeastOne (daysDiff / 7) in
      let monthsDiff := atLeastOne (daysDiff / 30) in
      {| totalTransactions := JS.length transactions;
         transactionsByType := transactionsByTypeOf transactions;
         totalVolume := totalVolume;
         averageTransactionSize := averageTransactionSize;
         mostActiveExchange := mostActiveOf exchangeCounts;
         transactionFrequency :=
           {| daily := JS.length transactions / daysDiff;
              weekly := JS.length transactions / weeksDiff;
              monthly := JS.length transactions / monthsDiff |};
         dateRange := (Some (LedgerRow.date first), Some (LedgerRow.date last)) |}
  | _, _ =>
      {| totalTransactions := 0;
         transactionsByType := map (fun type => (type, 0%nat)) allTransactionTypes;
         totalVolume := 0;
         averageTransactionSize := 0;
         mostActiveExchange := None;
         transactionFrequency := {| daily := 0; weekly := 0; monthly := 0 |};
         dateRange := (None, None) |}
  end.

(** The number of transactions of a type. *)
Definition occurrences (type : TransactionType) (transactions : list LedgerRow.t) : nat :=
  List.length
    (filter (fun tx => TransactionType_eqb (LedgerRow.type tx) type) transactions).

(** The count an object holds for a key, 0 for a key it does not hold. *)
Definition countOr0 {K} (eqb : K -> K -> bool) (counts : Counts K) (key : K) : nat :=
  match countOf eqb key counts with
  | Some n => n
  | None => 0%nat
  end.

(** ** Notions used in the statements *)

(** One of the five calls handed to [Promise.all] throws. *)
Definition someCallThrows (calls : Calls) : Prop :=
  (exists e, call_getPortfolioSummary calls = Thrown e)
  \/ (exists e, call_calculateTimeBasedPerformance calls = Thrown e)
  \/ (exists e, call_calculateAdvancedMetrics calls = Thrown e)
  \/ (exists e, call_calculateRiskMetrics calls = Thrown e)
  \/ (exists e, call_calculateBenchmarkComparisons calls = Thrown e).

(** Calls among which the time-based performance throws while the summary
    is computable. *)
Definition callsTimeBasedThrows : Calls :=
  callsFor emptyWorld "alice"
    (Returned (Summary.mk 0 0 0 0 0 0)) (Returned (Summary.mk 0 0 0 0 0 1))
    (Thrown "ledger unavailable") (Returned []).

(** Calls in which [getPortfolioSummary] throws, inside [Promise.all] and in
    the [catch] block. *)
Definition callsSummaryThrows : Calls :=
  callsFor emptyWorld "alice"
    (Thrown "ledger unavailable") (Thrown "ledger unavailable")
    (Returned []) (Returned []).

(** The date of day [i] of a window of [days] days. *)
Definition dayOf (w : World) (days : nat) (i : nat) : Z :=
  (now w - Z.of_nat days * MS_PER_DAY + Z.of_nat i * MS_PER_DAY)%Z.

(** The valuation at [targetDate] returns. *)
Definition valued (w : World) (uid : string) (targetDate : Z) : bool :=
  match estimatePortfolioValueAtDate w uid targetDate with
  | Returned _ => true
  | Thrown _ => false
  end.

(** Some point of the series is valued below an earlier one, that is, below
    the running peak. *)
Definition Declined (series : list DailyValue) : Prop :=
  exists l1 p l2 q l3,
    series = l1 ++ p :: l2 ++ q :: l3 /\ value q < value p.

(** What the loop of [calculateMaxDrawdown] keeps true of its variables once
    the points [seen] are behind it. *)
Record DrawdownInv (seen : list DailyValue) (st : DrawdownState) : Prop := {
  inv_peak_bound : forall p, In p seen -> value p <= dd_peak st;
  inv_peak_seen : exists p, In p seen /\ dd_peak st = value p;
  inv_nonneg : 0 <= dd_maxDrawdown st;
  inv_sound : 0 < dd_maxDrawdown st -> Declined seen;
  inv_complete :
    (forall p, In p seen -> 0 <= value p) -> Declined seen ->
    0 < dd_maxDrawdown st
}.

(** Scenario C: the values 100, 110, 99, 105 on four consecutive days. *)
Definition scenarioC : list DailyValue :=
  [ mkDailyValue DAY0 100 0;
    mkDailyValue (DAY0 + MS_PER_DAY) 110 10;
    mkDailyValue (DAY0 + 2 * MS_PER_DAY) 99 (-10);
    mkDailyValue (DAY0 + 3 * MS_PER_DAY) 105 (600 # 99) ].

(** A series of 100 days whose returns run from 50 down to -49. *)
Definition rampSeries : list DailyValue :=
  map (fun i => mkDailyValue (DAY0 + Z.of_nat i * MS_PER_DAY) 100
                  (inject_Z (50 - Z.of_nat i)))
      (seq 0 100).

(** Two days with the same value: both returns are 0. *)
Definition flatSeries : list DailyValue :=
  [ mkDailyValue DAY0 100 0; mkDailyValue (DAY0 + MS_PER_DAY) 100 0 ].

(** The change a transaction makes to the tracked amount. *)
Definition signedAmount (transaction : Transaction.t) : Q :=
  match Transaction.type transaction with
  | BUY | TRANSFER_IN | AIRDROP | REWARD => Transaction.amount transaction
  | SELL | TRANSFER_OUT => - Transaction.amount transaction
  | STAKE | UNSTAKE => 0
  end.

(** The value of a transaction as the tracker reads it (lines 276-277). *)
Definition valueOf (transaction : Transaction.t) : Q :=
  JS.or_else (Transaction.totalValue transaction)
    (Transaction.amount transaction
     * JS.or_else (Transaction.pricePerToken transaction) 0).

(** The value a transaction adds to the cost basis when it is an inflow. *)
Definition inflowValue (transaction : Transaction.t) : Q :=
  match Transaction.type transaction with
  | BUY | TRANSFER_IN | AIRDROP | REWARD => valueOf transaction
  | _ => 0
  end.

(** The sum of [f] over a list. *)
Definition total {A} (f : A -> Q) (l : list A) : Q :=
  fold_right (fun x acc => f x + acc) 0 l.

Definition isStaking (transaction : Transaction.t) : bool :=
  match Transaction.type transaction with
  | STAKE | UNSTAKE => true
  | _ => false
  end.

(** A transaction whose amount, value and unit price are not negative, as
    the routes and [validateTransactionData] require of what they store. *)
Definition validTransaction (transaction : Transaction.t) : Prop :=
  0 <= Transaction.amount transaction
  /\ (forall v, Transaction.totalValue transaction = Some v -> 0 <= v)
  /\ (forall p, Transaction.pricePerToken transaction = Some p -> 0 <= p).

(** A world whose ledger queries return valid transactions and whose oracle
    quotes no negative price. *)
Definition validWorld (w : World) (uid : string) : Prop :=
  (forall d transactions,
      findMany w uid d = Returned transactions ->
      Forall validTransaction transactions)
  /\ (forall symbol d p,
         getHistoricalPrice w symbol d = Returned (Some p) -> 0 <= p).

(** The transactions of one token symbol. *)
Definition ofSymbol (symbol : string) (transaction : Transaction.t) : bool :=
  String.eqb (tokenSymbol (Transaction.holding transaction)) symbol.

(** The percentage return of a value [v] against the previous value
    (lines 906-908). *)
Definition returnAfter (previous v : Q) : Q :=
  if JS.gt previous 0 then ((v - previous) / previous) * 100 else 0.


(** * Properties *)

(** ** Comparisons and truthiness *)

Lemma gt_true (a b : Q) : JS.gt a b = true <-> b < a.
Proof.
  unfold JS.gt. rewrite negb_true_iff.
  split; intro H.
  - apply Qnot_le_lt. intro L. apply Qle_bool_iff in L. congruence.
  - destruct (Qle_bool a b) eqn:E; [|reflexivity].
    apply Qle_bool_iff in E. exfalso. apply (Qlt_not_le _ _ H E).
Qed.

Lemma gt_false (a b : Q) : JS.gt a b = false <-> a <= b.
Proof.
  unfold JS.gt. rewrite negb_false_iff. apply Qle_bool_iff.
Qed.

Lemma lt_true (a b : Q) : JS.lt a b = true <-> a < b.
Proof. apply (gt_true b a). Qed.

Lemma lt_false (a b : Q) : JS.lt a b = false <-> b <= a.
Proof. apply (gt_false b a). Qed.

Lemma truthy_true (a : Q) : JS.truthy a = true <-> ~ a == 0.
Proof.
  unfold JS.truthy. rewrite negb_true_iff. split; intro H.
  - intro E. apply Qeq_bool_iff in E. congruence.
  - destruct (Qeq_bool a 0) eqn:E; [|reflexivity].
    apply Qeq_bool_iff in E. contradiction.
Qed.

Lemma truthy_false (a : Q) : JS.truthy a = false <-> a == 0.
Proof.
  unfold JS.truthy. rewrite negb_false_iff. apply Qeq_bool_iff.
Qed.

Lemma div_Some (a b : Q) : ~ b == 0 -> JS.div a b = Some (a / b).
Proof.
  intro H. unfold JS.div. destruct (Qeq_bool b 0) eqn:E; [|reflexivity].
  apply Qeq_bool_iff in E. contradiction.
Qed.

Lemma div_None (a b : Q) : b == 0 -> JS.div a b = None.
Proof.
  intro H. unfold JS.div. apply Qeq_bool_iff in H. now rewrite H.
Qed.

(** ** Cost-basis tracker *)

(** C2 (Scenario A).  One BUY of amount 1.0 with total value 40,000
    followed by one SELL of amount 0.5 with total value 25,000, whatever
    their unit prices, dates and holding: the recomputation writes amount
    0.5, total cost basis 20,000 and realized P&L 5,000. *)
Theorem C2_scenario_A :
  forall (price1 price2 : option Q) (date1 date2 : Z) (h : PortfolioHolding),
  exists data,
    calculateHoldingMetrics
      (Some [ Transaction.mk BUY 1 price1 (Some 40000) date1 h;
              Transaction.mk SELL 0.5 price2 (Some 25000) date2 h ])
    = Returned (Some data)
    /\ currentAmount data == 0.5
    /\ hd_totalCostBasis data == 20000
    /\ hd_realizedPnL data == 5000.
Proof.
  intros. eexists. split; [reflexivity|].
  repeat split; vm_compute; reflexivity.
Qed.


(** The SELL branch of the loop when the guard of line 292 holds and the
    divisor is not zero. *)
Lemma holdingStep_sell_realized (st : Totals) (transaction : Transaction.t) :
  Transaction.type transaction = SELL ->
  realizes st transaction = true ->
  ~ avgCostDivisor st transaction == 0 ->
  let amount := Transaction.amount transaction in
  let value :=
    JS.or_else (Transaction.totalValue transaction)
      (amount * JS.or_else (Transaction.pricePerToken transaction) 0) in
  let costOfSold := totalCostBasis st / avgCostDivisor st transaction * amount in
  holdingStep st transaction
  = Some {| totalAmount := totalAmount st - amount;
            totalCostBasis := totalCostBasis st - costOfSold;
            realizedPnL := realizedPnL st + (value - costOfSold) |}.
Proof.
  intros Hty Hr Hd. unfold holdingStep. rewrite Hty, Hr.
  fold (avgCostDivisor st transaction).
  rewrite (div_Some _ _ Hd). reflexivity.
Qed.




(** ** Historical valuation estimator *)

Lemma lookup_app_None (symbol : string) (h1 h2 : HoldingsAtDate) :
  lookup symbol h1 = None -> lookup symbol (h1 ++ h2) = lookup symbol h2.
Proof.
  induction h1 as [|[s p] h1 IH]; simpl; intro H; [reflexivity|].
  destruct (String.eqb s symbol); [discriminate|]. now apply IH.
Qed.

Lemma lookup_app_Some (symbol : string) (h1 h2 : HoldingsAtDate) (p : Position) :
  lookup symbol h1 = Some p -> lookup symbol (h1 ++ h2) = Some p.
Proof.
  induction h1 as [|[s q] h1 IH]; simpl; intro H; [discriminate|].
  destruct (String.eqb s symbol); [exact H|]. now apply IH.
Qed.

(** Writing a present key and reading it back. *)
Lemma lookup_update_same (symbol : string) (f : Position -> Position)
  (h : HoldingsAtDate) :
  lookup symbol (update symbol f h) = option_map f (lookup symbol h).
Proof.
  induction h as [|[s p] h IH]; simpl; [reflexivity|].
  destruct (String.eqb s symbol) eqn:E; simpl; rewrite E; [reflexivity|exact IH].
Qed.

(** Writing a key leaves the others as they were. *)
Lemma lookup_update_other (symbol other : string) (f : Position -> Position)
  (h : HoldingsAtDate) :
  other <> symbol ->
  lookup other (update symbol f h) = lookup other h.
Proof.
  intro Hne. induction h as [|[s p] h IH]; simpl; [reflexivity|].
  destruct (String.eqb s symbol) eqn:E; simpl.
  - apply String.eqb_eq in E. subst s.
    destruct (String.eqb symbol other) eqn:E'; [|reflexivity].
    apply String.eqb_eq in E'. congruence.
  - destruct (String.eqb s other); [reflexivity|exact IH].
Qed.

Lemma lookup_ensure_same (symbol : string) (h : HoldingsAtDate) :
  lookup symbol (ensure symbol h) = Some (positionOf symbol h).
Proof.
  unfold ensure, positionOf. destruct (lookup symbol h) eqn:E.
  - exact E.
  - rewrite (lookup_app_None _ _ _ E). simpl. now rewrite String.eqb_refl.
Qed.

Lemma lookup_ensure_other (symbol other : string) (h : HoldingsAtDate) :
  other <> symbol ->
  lookup other (ensure symbol h) = lookup other h.
Proof.
  intro Hne. unfold ensure. destruct (lookup symbol h) eqn:E; [reflexivity|].
  destruct (lookup other h) eqn:E'.
  - now apply lookup_app_Some.
  - rewrite (lookup_app_None _ _ _ E'). simpl.
    destruct (String.eqb symbol other) eqn:E2; [|reflexivity].
    apply String.eqb_eq in E2. congruence.
Qed.

(** What the replay makes of the position of a transaction's own symbol. *)
Lemma replayStep_own_symbol (h : HoldingsAtDate) (transaction : Transaction.t) :
  let symbol := tokenSymbol (Transaction.holding transaction) in
  let txAmount := Transaction.amount transaction in
  let value :=
    JS.or_else (Transaction.totalValue transaction)
      (JS.or_else (Transaction.pricePerToken transaction) 0 * txAmount) in
  lookup symbol (replayStep h transaction)
  = Some (match Transaction.type transaction with
          | BUY | TRANSFER_IN | AIRDROP | REWARD =>
              inflow txAmount value (positionOf symbol h)
          | SELL | TRANSFER_OUT => outflow txAmount (positionOf symbol h)
          | STAKE | UNSTAKE => positionOf symbol h
          end).
Proof.
  unfold replayStep.
  destruct (Transaction.type transaction); cbv zeta;
    rewrite ?lookup_update_same, lookup_ensure_same; reflexivity.
Qed.

(** The replay of a transaction leaves the other symbols' positions alone. *)
Lemma replayStep_other_symbol (h : HoldingsAtDate) (transaction : Transaction.t)
  (other : string) :
  other <> tokenSymbol (Transaction.holding transaction) ->
  lookup other (replayStep h transaction) = lookup other h.
Proof.
  intro Hne. unfold replayStep.
  destruct (Transaction.type transaction); cbv zeta;
    rewrite ?(lookup_update_other _ _ _ _ Hne); now apply lookup_ensure_other.
Qed.




Lemma valuationStep_acc (w : World) (targetDate : Z) (acc : Q)
  (entry : string * Position) :
  valuationStep w targetDate acc entry == acc + valuationStep w targetDate 0 entry.
Proof.
  destruct entry as [symbol holding]. unfold valuationStep.
  destruct (JS.gt (amount holding) 0); ring.
Qed.

Lemma fold_valuationStep_acc (w : World) (targetDate : Z) (l : HoldingsAtDate) :
  forall acc,
    fold_left (valuationStep w targetDate) l acc == acc + valuation w targetDate l.
Proof.
  unfold valuation.
  induction l as [|e l IH]; intro acc; simpl.
  - ring.
  - rewrite (IH (valuationStep w targetDate acc e)).
    rewrite (IH (valuationStep w targetDate 0 e)).
    rewrite (valuationStep_acc w targetDate acc e). ring.
Qed.

(** The valuation of a map is the sum of the valuations of its parts. *)
Lemma valuation_app (w : World) (targetDate : Z) (l1 l2 : HoldingsAtDate) :
  valuation w targetDate (l1 ++ l2)
  == valuation w targetDate l1 + valuation w targetDate l2.
Proof.
  unfold valuation at 1. rewrite fold_left_app.
  apply fold_valuationStep_acc.
Qed.

Lemma valuation_cons_held (w : World) (targetDate : Z) (symbol : string)
  (holding : Position) (l : HoldingsAtDate) :
  0 < amount holding ->
  valuation w targetDate ((symbol, holding) :: l)
  == contribution w targetDate symbol holding + valuation w targetDate l.
Proof.
  intro H. unfold valuation at 1. simpl.
  rewrite fold_valuationStep_acc.
  apply gt_true in H. rewrite H. ring.
Qed.

(** C6.  In valuation-at-date a price-oracle error or miss for a held symbol
    does not abort the call: once the ledger query has returned, the call
    returns; the symbol adds exactly its reconstructed cost basis, and the
    symbols before and after it in the map are summed as they would be
    without it. *)
Theorem C6_oracle_miss_falls_back_to_cost_basis
  (w : World) (uid : string) (targetDate : Z)
  (transactions : list Transaction.t)
  (before after : HoldingsAtDate) (symbol : string) (holding : Position) :
  findMany w uid targetDate = Returned transactions ->
  replay transactions = before ++ (symbol, holding) :: after ->
  0 < amount holding ->
  (getHistoricalPrice w symbol targetDate = Returned None
   \/ exists e, getHistoricalPrice w symbol targetDate = Thrown e) ->
  contribution w targetDate symbol holding = costBasis holding
  /\ exists totalValue,
       estimatePortfolioValueAtDate w uid targetDate = Returned totalValue
       /\ totalValue
          == valuation w targetDate before + costBasis holding
             + valuation w targetDate after.
Proof.
  intros Hq Hr Hpos Hmiss.
  assert (Hc : contribution w targetDate symbol holding = costBasis holding).
  { unfold contribution. destruct Hmiss as [-> | [e ->]]; reflexivity. }
  split; [exact Hc|].
  unfold estimatePortfolioValueAtDate. rewrite Hq, Hr.
  eexists. split; [reflexivity|].
  rewrite valuation_app, (valuation_cons_held _ _ _ _ _ Hpos), Hc. ring.
Qed.

(** C6 on Scenario D: ETH held with cost basis $5,000 and no historical
    price, BTC priced; ETH adds exactly 5,000 and BTC is still summed. *)
Lemma C6_oracle_miss_falls_back_to_cost_basis_witness :
  contribution worldD (DAY0 + 5) "ETH" (mkPosition 2 5000) = 5000
  /\ exists totalValue,
       estimatePortfolioValueAtDate worldD "alice" (DAY0 + 5) = Returned totalValue
       /\ totalValue
          == valuation worldD (DAY0 + 5) [] + 5000
             + valuation worldD (DAY0 + 5) [("BTC"%string, mkPosition 1 100)].
Proof.
  apply (C6_oracle_miss_falls_back_to_cost_basis worldD "alice" (DAY0 + 5)
           scenarioD [] [("BTC"%string, mkPosition 1 100)] "ETH"
           (mkPosition 2 5000)).
  - reflexivity.
  - vm_compute. reflexivity.
  - reflexivity.
  - left. reflexivity.
Defined.

(** ** Metrics aggregator *)

Lemma Promise_all_rejects (calls : Calls) :
  someCallThrows calls -> exists e, Promise_all calls = Thrown e.
Proof.
  unfold someCallThrows, Promise_all.
  intros [[e H] | [[e H] | [[e H] | [[e H] | [e H]]]]]; rewrite H;
    destruct (call_getPortfolioSummary calls);
    destruct (call_calculateTimeBasedPerformance calls);
    destruct (call_calculateAdvancedMetrics calls);
    destruct (call_calculateRiskMetrics calls);
    destruct (call_calculateBenchmarkComparisons calls);
    try discriminate; eexists; reflexivity.
Qed.

Lemma Promise_all_resolves (calls : Calls) :
  ~ someCallThrows calls -> exists r, Promise_all calls = Returned r.
Proof.
  unfold someCallThrows, Promise_all. intro H.
  destruct (call_getPortfolioSummary calls);
    [|exfalso; apply H; left; eexists; reflexivity].
  destruct (call_calculateTimeBasedPerformance calls);
    [|exfalso; apply H; right; left; eexists; reflexivity].
  destruct (call_calculateAdvancedMetrics calls);
    [|exfalso; apply H; right; right; left; eexists; reflexivity].
  destruct (call_calculateRiskMetrics calls);
    [|exfalso; apply H; right; right; right; left; eexists; reflexivity].
  destruct (call_calculateBenchmarkComparisons calls);
    [|exfalso; apply H; right; right; right; right; eexists; reflexivity].
  eexists. reflexivity.
Qed.

(** C7, as the code has it.  If any of the five sub-computations throws and
    the call of [getPortfolioSummary] made in the [catch] block returns
    [summary], the aggregator returns, and what it returns is the fallback
    structure: that summary, with all four analytic sections in their
    empty/null form. *)
Theorem C7_fallback_when_summary_recomputes (calls : Calls) (s : Summary.t) :
  someCallThrows calls ->
  call_getPortfolioSummary_in_catch calls = Returned s ->
  getEnhancedPortfolioMetrics calls = Returned (fallbackMetrics s)
  /\ summary (fallbackMetrics s) = s
  /\ timeBasedPerformance (fallbackMetrics s) = []
  /\ advancedMetrics (fallbackMetrics s) = emptyAdvancedMetrics
  /\ benchmarkComparisons (fallbackMetrics s) = []
  /\ riskMetrics (fallbackMetrics s) = emptyRiskMetrics.
Proof.
  intros Hthrow Hs.
  destruct (Promise_all_rejects calls Hthrow) as [e He].
  unfold getEnhancedPortfolioMetrics. rewrite He, Hs.
  repeat split.
Qed.

Lemma C7_fallback_when_summary_recomputes_witness :
  getEnhancedPortfolioMetrics callsTimeBasedThrows
  = Returned (fallbackMetrics (Summary.mk 0 0 0 0 0 1)).
Proof.
  apply (C7_fallback_when_summary_recomputes callsTimeBasedThrows
           (Summary.mk 0 0 0 0 0 1)).
  - right. left. eexists. reflexivity.
  - reflexivity.
Defined.

(** C7 as stated fails.  When [getPortfolioSummary] throws, the call in the
    [catch] block throws as well and the aggregator throws. *)
Lemma C7_counterexample :
  someCallThrows callsSummaryThrows
  /\ getEnhancedPortfolioMetrics callsSummaryThrows = Thrown "ledger unavailable".
Proof.
  split.
  - left. eexists. reflexivity.
  - reflexivity.
Qed.

(** ** Daily return series builder *)

Lemma dailyStep_dates (w : World) (uid : string) (startDate : Z) (indices : list nat) :
  forall st,
    map date (fst (fold_left (dailyStep w uid startDate) indices st))
    = map date (fst st)
      ++ map (fun i => (startDate + Z.of_nat i * MS_PER_DAY)%Z)
           (filter (fun i => valued w uid (startDate + Z.of_nat i * MS_PER_DAY)%Z)
              indices).
Proof.
  induction indices as [|i indices IH]; intros [dailyValues previousValue]; simpl.
  - now rewrite app_nil_r.
  - rewrite IH. unfold dailyStep, valued.
    destruct (estimatePortfolioValueAtDate w uid (startDate + Z.of_nat i * MS_PER_DAY)%Z);
      simpl; [|reflexivity].
    rewrite map_app, <- app_assoc. reflexivity.
Qed.

(** The loop keeps the first point it pushed, and pushes a first point with
    return 0. *)
Lemma dailyStep_first_return (w : World) (uid : string) (startDate : Z)
  (indices : list nat) :
  forall st,
    (fst st = [] -> snd st = None) ->
    (forall p, hd_error (fst st) = Some p -> return_ p = 0) ->
    forall p,
      hd_error (fst (fold_left (dailyStep w uid startDate) indices st)) = Some p ->
      return_ p = 0.
Proof.
  induction indices as [|i indices IH]; intros [dailyValues previousValue] Hprev Hhd p;
    simpl in *.
  - apply Hhd.
  - apply IH.
    + unfold dailyStep.
      destruct (estimatePortfolioValueAtDate w uid (startDate + Z.of_nat i * MS_PER_DAY)%Z);
        simpl; [|exact Hprev].
      intro H. destruct dailyValues; discriminate.
    + unfold dailyStep.
      destruct (estimatePortfolioValueAtDate w uid (startDate + Z.of_nat i * MS_PER_DAY)%Z);
        simpl; [|exact Hhd].
      destruct dailyValues as [|d dailyValues]; simpl.
      * intros q Hq. injection Hq as <-. simpl.
        now rewrite (Hprev eq_refl).
      * exact Hhd.
Qed.

Lemma filter_all_true {A} (f : A -> bool) (l : list A) :
  (forall x, In x l -> f x = true) -> filter f l = l.
Proof.
  induction l as [|x l IH]; simpl; intro H; [reflexivity|].
  rewrite (H x (or_introl eq_refl)). f_equal. apply IH. intros; apply H; now right.
Qed.

(** C4, as the code has it.  The series has one point per day of the window
    whose valuation returned, day [i] being dated [now - days + i] days for
    [0 <= i < days]: the window runs from [now - days] to [now - 1] days, so
    no point is dated [now]; when no valuation throws the series has [days]
    points.  The first point's return is 0. *)
Theorem C4_daily_series_window (w : World) (uid : string) (days : nat) :
  let series := calculateDailyReturns w uid days in
  map date series
  = map (dayOf w days) (filter (fun i => valued w uid (dayOf w days i)) (seq 0 days))
  /\ ((forall i, (i < days)%nat -> valued w uid (dayOf w days i) = true) ->
      map date series = map (dayOf w days) (seq 0 days)
      /\ List.length series = days)
  /\ (forall p, In p series ->
      (now w - Z.of_nat days * MS_PER_DAY <= date p <= now w - MS_PER_DAY)%Z)
  /\ (forall p, hd_error series = Some p -> return_ p = 0).
Proof.
  intro series.
  assert (Hdates :
    map date series
    = map (dayOf w days) (filter (fun i => valued w uid (dayOf w days i)) (seq 0 days))).
  { unfold series, calculateDailyReturns. cbv zeta.
    rewrite dailyStep_dates. reflexivity. }
  split; [exact Hdates|]. split; [|split].
  - intro Hall.
    assert (E : map date series = map (dayOf w days) (seq 0 days)).
    { rewrite Hdates. f_equal. apply filter_all_true.
      intros i Hi. apply in_seq in Hi. apply Hall. lia. }
    split; [exact E|].
    rewrite <- (length_map date series), E, length_map. apply length_seq.
  - intros p Hp.
    apply (in_map date) in Hp. rewrite Hdates in Hp.
    apply in_map_iff in Hp. destruct Hp as [i [<- Hi]].
    apply filter_In in Hi. destruct Hi as [Hi _]. apply in_seq in Hi.
    unfold dayOf, MS_PER_DAY. lia.
  - unfold series, calculateDailyReturns. cbv zeta.
    apply dailyStep_first_return; simpl; [reflexivity|discriminate].
Qed.

(** C4 on a ledger without transactions, over a year: no valuation throws,
    so the series has 365 points. *)
Lemma C4_daily_series_window_witness :
  List.length (calculateDailyReturns emptyWorld "alice" 365) = 365%nat.
Proof.
  apply (C4_daily_series_window emptyWorld "alice" 365).
  intros i _. reflexivity.
Defined.

(** C4 as stated fails.  Over a window of 365 days on a ledger that never
    fails the series has 365 points, not 366, and its last point is dated
    one day before [now]. *)
Lemma C4_counterexample :
  List.length (calculateDailyReturns emptyWorld "alice" 365) = 365%nat
  /\ List.length (calculateDailyReturns emptyWorld "alice" 365) <> (365 + 1)%nat
  /\ option_map date (hd_error (rev (calculateDailyReturns emptyWorld "alice" 365)))
     = Some (now emptyWorld - MS_PER_DAY)%Z
  /\ (now emptyWorld - MS_PER_DAY)%Z <> now emptyWorld.
Proof.
  repeat split; vm_compute; congruence.
Qed.

(** ** Maximum drawdown *)

Lemma Declined_app_r (seen l : list DailyValue) :
  Declined seen -> Declined (seen ++ l).
Proof.
  intros (l1 & p & l2 & q & l3 & -> & H).
  exists l1, p, l2, q, (l3 ++ l). split; [|exact H].
  rewrite <- app_assoc. simpl. rewrite <- app_assoc. reflexivity.
Qed.

Lemma Declined_snoc (seen : list DailyValue) (q : DailyValue) :
  Declined (seen ++ [q])
  <-> Declined seen \/ exists p, In p seen /\ value q < value p.
Proof.
  split.
  - intros (l1 & p & l2 & q' & l3 & E & H).
    induction l3 as [|z l3 _] using rev_ind.
    + replace (l1 ++ p :: l2 ++ [q']) with ((l1 ++ p :: l2) ++ [q']) in E
        by (rewrite <- app_assoc; reflexivity).
      apply app_inj_tail in E. destruct E as [-> ->].
      right. exists p. split; [apply in_elt | exact H].
    + replace (l1 ++ p :: l2 ++ q' :: l3 ++ [z])
        with ((l1 ++ p :: l2 ++ q' :: l3) ++ [z]) in E
        by (rewrite <- app_assoc; simpl; rewrite <- app_assoc; reflexivity).
      apply app_inj_tail in E. destruct E as [-> ->].
      left. exists l1, p, l2, q', l3. split; [reflexivity | exact H].
  - intros [Hd | (p & Hin & Hlt)].
    + now apply Declined_app_r.
    + apply in_split in Hin. destruct Hin as (l1 & l2 & ->).
      exists l1, p, l2, q, []. split; [|exact Hlt].
      now rewrite <- app_assoc.
Qed.

Lemma not_Declined_single (p : DailyValue) : ~ Declined [p].
Proof.
  intros (l1 & a & l2 & b & l3 & E & _).
  apply (f_equal (@List.length _)) in E.
  rewrite length_app in E. simpl in E. rewrite length_app in E. simpl in E. lia.
Qed.

(** Against a positive peak the drawdown is positive exactly below the peak. *)
Lemma drawdown_positive (peak v : Q) :
  0 < peak -> (0 < (peak - v) / peak * 100 <-> v < peak).
Proof.
  intro Hp.
  assert (Hk : 0 < / peak * 100).
  { apply Qmult_lt_0_compat; [now apply Qinv_lt_0_compat | reflexivity]. }
  assert (E : (peak - v) / peak * 100 == (peak - v) * (/ peak * 100))
    by (unfold Qdiv; ring).
  rewrite E. split; intro H.
  - apply Qnot_le_lt. intro Hle.
    assert (Hneg : (peak - v) * (/ peak * 100) <= 0 * (/ peak * 100)).
    { apply Qmult_le_compat_r; [lra | now apply Qlt_le_weak]. }
    lra.
  - apply Qmult_lt_0_compat; [lra | exact Hk].
Qed.

Lemma drawdownAt_nonneg_peak (peak : Q) (day : DailyValue) :
  value day <= peak -> 0 <= drawdownAt peak day.
Proof.
  intro H. unfold drawdownAt. destruct (JS.gt peak 0) eqn:E; [|lra].
  apply gt_true in E.
  destruct (Qlt_le_dec (value day) peak) as [Hlt | Hge].
  - apply Qlt_le_weak. exact (proj2 (drawdown_positive _ _ E) Hlt).
  - assert (Ev : peak - value day == 0) by lra.
    rewrite Ev. unfold Qdiv. lra.
Qed.

Lemma drawdownStep_inv (seen : list DailyValue) (st : DrawdownState)
  (day : DailyValue) :
  DrawdownInv seen st -> DrawdownInv (seen ++ [day]) (drawdownStep st day).
Proof.
  intros [Hbound [pk [Hpk_in Hpk]] Hnn Hsound Hcomplete].
  unfold drawdownStep, peakAfter.
  destruct (JS.gt (value day) (dd_peak st)) eqn:Erise.
  - (* a new peak: the drawdown at this point is 0 *)
    apply gt_true in Erise.
    assert (Hdd : drawdownAt (value day) day == 0).
    { unfold drawdownAt. destruct (JS.gt (value day) 0); [|reflexivity].
      assert (E0 : value day - value day == 0) by ring.
      rewrite E0. unfold Qdiv. ring. }
    assert (Hno : JS.gt (drawdownAt (value day) day) (dd_maxDrawdown st) = false).
    { apply gt_false. rewrite Hdd. exact Hnn. }
    rewrite Hno. constructor; cbn.
    + intros p Hp. apply in_app_or in Hp. destruct Hp as [Hp | [<- | []]].
      * apply Qlt_le_weak. eapply Qle_lt_trans; [apply Hbound, Hp | exact Erise].
      * apply Qle_refl.
    + exists day. split; [apply in_or_app; right; now left | reflexivity].
    + exact Hnn.
    + intro H. apply Declined_app_r. now apply Hsound.
    + intros Hpos Hd. apply Declined_snoc in Hd.
      destruct Hd as [Hd | (p & Hp & Hlt)].
      * apply Hcomplete; [|exact Hd].
        intros p Hp. apply Hpos. apply in_or_app. now left.
      * exfalso. pose proof (Hbound p Hp). lra.
  - (* the peak stands *)
    apply gt_false in Erise.
    pose proof (drawdownAt_nonneg_peak _ _ Erise) as Hdd_nn.
    assert (Hdecl : 0 < drawdownAt (dd_peak st) day -> value day < dd_peak st).
    { unfold drawdownAt. destruct (JS.gt (dd_peak st) 0) eqn:E.
      - apply gt_true in E. intro H.
        exact (proj1 (drawdown_positive _ _ E) H).
      - intro H. exfalso. apply (Qlt_irrefl 0 H). }
    assert (Hpos_dd : 0 <= value day -> value day < dd_peak st ->
                      0 < drawdownAt (dd_peak st) day).
    { intros Hv Hlt. unfold drawdownAt.
      assert (E : JS.gt (dd_peak st) 0 = true) by (apply gt_true; lra).
      rewrite E. apply drawdown_positive; [lra | exact Hlt]. }
    destruct (JS.gt (drawdownAt (dd_peak st) day) (dd_maxDrawdown st)) eqn:Edeeper.
    + apply gt_true in Edeeper. constructor; cbn.
      * intros p Hp. apply in_app_or in Hp. destruct Hp as [Hp | [<- | []]];
          [now apply Hbound | exact Erise].
      * exists pk. split; [apply in_or_app; now left | exact Hpk].
      * lra.
      * intros _. apply Declined_snoc. right. exists pk. split; [exact Hpk_in|].
        rewrite <- Hpk. apply Hdecl. lra.
      * intros _ _. lra.
    + apply gt_false in Edeeper. constructor; cbn.
      * intros p Hp. apply in_app_or in Hp. destruct Hp as [Hp | [<- | []]];
          [now apply Hbound | exact Erise].
      * exists pk. split; [apply in_or_app; now left | exact Hpk].
      * exact Hnn.
      * intro H. apply Declined_app_r. now apply Hsound.
      * intros Hpos Hd. apply Declined_snoc in Hd.
        destruct Hd as [Hd | (p & Hp & Hlt)].
        -- apply Hcomplete; [|exact Hd].
           intros p Hp. apply Hpos. apply in_or_app. now left.
        -- assert (Hv : 0 <= value day).
           { apply Hpos. apply in_or_app. right. now left. }
           pose proof (Hbound p Hp).
           assert (0 < drawdownAt (dd_peak st) day) by (apply Hpos_dd; lra).
           lra.
Qed.

Lemma drawdownLoop_inv (rest : list DailyValue) :
  forall seen st,
    DrawdownInv seen st ->
    DrawdownInv (seen ++ rest) (fold_left drawdownStep rest st).
Proof.
  induction rest as [|day rest IH]; intros seen st H; simpl.
  - now rewrite app_nil_r.
  - replace (seen ++ day :: rest) with ((seen ++ [day]) ++ rest)
      by (rewrite <- app_assoc; reflexivity).
    apply IH. now apply drawdownStep_inv.
Qed.

(** The first iteration leaves the initial variables as they are. *)
Lemma drawdownStep_first (first : DailyValue) :
  DrawdownInv [first]
    (drawdownStep
       {| dd_maxDrawdown := 0; dd_maxDrawdownPeriod := None;
          dd_peak := value first; dd_peakDate := date first |} first).
Proof.
  unfold drawdownStep, peakAfter. cbn.
  assert (E : JS.gt (value first) (value first) = false)
    by (apply gt_false; apply Qle_refl).
  rewrite E.
  assert (Hdd : drawdownAt (value first) first == 0).
  { unfold drawdownAt. destruct (JS.gt (value first) 0); [|reflexivity].
    assert (E0 : value first - value first == 0) by ring.
    rewrite E0. unfold Qdiv. ring. }
  assert (Hno : JS.gt (drawdownAt (value first) first) 0 = false).
  { apply gt_false. rewrite Hdd. apply Qle_refl. }
  rewrite Hno. constructor; cbn.
  - intros p [<- | []]. apply Qle_refl.
  - exists first. split; [now left | reflexivity].
  - apply Qle_refl.
  - intro H. exfalso. apply (Qlt_irrefl 0 H).
  - intros _ H. exfalso. apply (not_Declined_single _ H).
Qed.

Lemma calculateMaxDrawdown_inv (first : DailyValue) (rest : list DailyValue) :
  exists st,
    DrawdownInv (first :: rest) st
    /\ fst (calculateMaxDrawdown (first :: rest))
       = if JS.gt (dd_maxDrawdown st) 0 then Some (dd_maxDrawdown st) else None.
Proof.
  eexists. split; [|reflexivity]. simpl fold_left.
  apply (drawdownLoop_inv rest [first]). apply drawdownStep_first.
Qed.



(** ** Risk metrics *)

Lemma sortInsert_length (compare : Q -> Q -> Q) (x : Q) (l : list Q) :
  List.length (sortInsert compare x l) = S (List.length l).
Proof.
  induction l as [|y l IH]; simpl; [reflexivity|].
  destruct (JS.gt (compare x y) 0); simpl; [now rewrite IH | reflexivity].
Qed.

Lemma Array_sort_length (compare : Q -> Q -> Q) (l : list Q) :
  List.length (Array_sort compare l) = List.length l.
Proof.
  induction l as [|x l IH]; simpl; [reflexivity|].
  now rewrite sortInsert_length, IH.
Qed.

Lemma sortInsert_Permutation (compare : Q -> Q -> Q) (x : Q) (l : list Q) :
  Permutation (x :: l) (sortInsert compare x l).
Proof.
  induction l as [|y l IH]; simpl; [reflexivity|].
  destruct (JS.gt (compare x y) 0); [|reflexivity].
  rewrite perm_swap. now apply perm_skip.
Qed.

Lemma Array_sort_Permutation (compare : Q -> Q -> Q) (l : list Q) :
  Permutation l (Array_sort compare l).
Proof.
  induction l as [|x l IH]; simpl; [reflexivity|].
  rewrite <- sortInsert_Permutation. now apply perm_skip.
Qed.

Lemma sortInsert_Forall (P : Q -> Prop) (compare : Q -> Q -> Q) (x : Q) (l : list Q) :
  P x -> Forall P l -> Forall P (sortInsert compare x l).
Proof.
  intros Hx Hl. eapply Permutation_Forall; [apply sortInsert_Permutation|].
  now constructor.
Qed.

Lemma sortInsert_sorted (x : Q) (l : list Q) :
  StronglySorted Qle l ->
  StronglySorted Qle (sortInsert (fun a b => a - b) x l).
Proof.
  induction 1 as [|y l Hsorted IH Hall]; simpl.
  - constructor; constructor.
  - destruct (JS.gt (x - y) 0) eqn:E.
    + apply gt_true in E. constructor; [exact IH|].
      apply sortInsert_Forall; [lra | exact Hall].
    + apply gt_false in E. constructor.
      * now constructor.
      * constructor; [lra|].
        eapply Forall_impl; [|exact Hall]. intros z Hz. cbv beta in Hz. lra.
Qed.

(** Sorting by [(a, b) => a - b] yields an ascending array. *)
Lemma Array_sort_sorted (l : list Q) :
  StronglySorted Qle (Array_sort (fun a b => a - b) l).
Proof.
  induction l as [|x l IH]; simpl; [constructor|].
  now apply sortInsert_sorted.
Qed.

Lemma StronglySorted_nth_error (l : list Q) :
  StronglySorted Qle l ->
  forall i j a b,
    (i <= j)%nat -> nth_error l i = Some a -> nth_error l j = Some b -> a <= b.
Proof.
  induction 1 as [|x l Hsorted IH Hall]; intros i j a b Hij Ha Hb.
  - destruct i; discriminate.
  - destruct i as [|i], j as [|j]; simpl in *.
    + injection Ha as <-. injection Hb as <-. apply Qle_refl.
    + injection Ha as <-. apply nth_error_In in Hb.
      rewrite Forall_forall in Hall. now apply Hall.
    + lia.
    + apply (IH i j); [lia | assumption | assumption].
Qed.

Lemma sortedReturns_length (dailyReturns : list DailyValue) :
  List.length (sortedReturns dailyReturns) = List.length dailyReturns.
Proof.
  unfold sortedReturns. now rewrite Array_sort_length, length_map.
Qed.

(** The two percentile indices are in range and ordered. *)
Lemma var_indices (returns : list Q) :
  returns <> [] ->
  (0 <= var99Index returns <= var95Index returns)%Z
  /\ (var95Index returns < Z.of_nat (List.length returns))%Z.
Proof.
  intro Hne. unfold var99Index, var95Index, JS.length.
  assert (Hn : (1 <= Z.of_nat (List.length returns))%Z)
    by (destruct returns; [congruence | simpl List.length; lia]).
  set (n := Z.of_nat (List.length returns)) in *.
  assert (HnQ : inject_Z 1 <= inject_Z n) by (rewrite <- Zle_Qle; exact Hn).
  change (inject_Z 1) with 1 in HnQ.
  repeat split.
  - change 0%Z with (Qfloor 0). apply Qfloor_resp_le. lra.
  - apply Qfloor_resp_le. lra.
  - rewrite Zlt_Qlt.
    eapply Qle_lt_trans; [apply Qfloor_le|]. lra.
Qed.

(** The raw percentiles read off the sorted returns: both exist, and the
    99% one is at most the 95% one. *)
Lemma percentiles_ordered (dailyReturns : list DailyValue) :
  dailyReturns <> [] ->
  let returns := sortedReturns dailyReturns in
  exists a b,
    at_ returns (var99Index returns) = Some a
    /\ at_ returns (var95Index returns) = Some b
    /\ a <= b.
Proof.
  intros Hne returns.
  assert (Hne' : returns <> []).
  { intro E. apply (f_equal (@List.length _)) in E.
    unfold returns in E. rewrite sortedReturns_length in E.
    destruct dailyReturns; [congruence | discriminate]. }
  destruct (var_indices returns Hne') as [[H0 Hle] Hlt].
  unfold at_.
  destruct (nth_error returns (Z.to_nat (var99Index returns))) as [a|] eqn:Ea.
  2:{ apply nth_error_None in Ea. lia. }
  destruct (nth_error returns (Z.to_nat (var95Index returns))) as [b|] eqn:Eb.
  2:{ apply nth_error_None in Eb. lia. }
  exists a, b. repeat split.
  apply (StronglySorted_nth_error returns (Array_sort_sorted _)
           (Z.to_nat (var99Index returns)) (Z.to_nat (var95Index returns)));
    [lia | exact Ea | exact Eb].
Qed.

Lemma valueAtRisk_of_series (sqrt : Q -> Q) (dailyReturns : list DailyValue) :
  dailyReturns <> [] ->
  let returns := sortedReturns dailyReturns in
  valueAtRisk95 (riskMetricsOf sqrt dailyReturns)
  = JS.or_null (at_ returns (var95Index returns))
  /\ valueAtRisk99 (riskMetricsOf sqrt dailyReturns)
     = JS.or_null (at_ returns (var99Index returns)).
Proof.
  intro Hne. destruct dailyReturns; [congruence|]. split; reflexivity.
Qed.

Lemma toNumber_or_null (v : Q) : JS.toNumber (JS.or_null (Some v)) == v.
Proof.
  simpl. destruct (JS.truthy v) eqn:E; simpl; [reflexivity|].
  apply truthy_false in E. now rewrite E.
Qed.

Lemma or_null_Some (x : option Q) (v : Q) :
  JS.or_null x = Some v -> x = Some v.
Proof.
  destruct x as [u|]; simpl; [|discriminate].
  destruct (JS.truthy u); [intro H; exact H | discriminate].
Qed.

(** C8.  For every return series the 99% Value-at-Risk is at most the 95%
    one: whenever both are reported as numbers, and also with a null
    reading as the 0 it stands for. *)
Theorem C8_VaR99_le_VaR95 (sqrt : Q -> Q) (dailyReturns : list DailyValue) :
  let risk := riskMetricsOf sqrt dailyReturns in
  (forall v99 v95,
      valueAtRisk99 risk = Some v99 -> valueAtRisk95 risk = Some v95 ->
      v99 <= v95)
  /\ JS.toNumber (valueAtRisk99 risk) <= JS.toNumber (valueAtRisk95 risk).
Proof.
  destruct dailyReturns as [|d rest].
  - simpl. split; [discriminate | apply Qle_refl].
  - assert (Hne : d :: rest <> []) by discriminate.
    destruct (valueAtRisk_of_series sqrt _ Hne) as [E95 E99].
    destruct (percentiles_ordered _ Hne) as (a & b & Ha & Hb & Hab).
    cbv zeta in *. rewrite E95, E99, Ha, Hb. split.
    + intros v99 v95 H99 H95.
      apply or_null_Some in H99. apply or_null_Some in H95.
      injection H99 as <-. injection H95 as <-. exact Hab.
    + now rewrite !toNumber_or_null.
Qed.

(** C8 on the ramp: the 99% percentile is -48, the 95% one -44. *)
Lemma C8_VaR99_le_VaR95_witness :
  valueAtRisk99 (riskMetricsOf sqrtMicro rampSeries) = Some (-48)
  /\ valueAtRisk95 (riskMetricsOf sqrtMicro rampSeries) = Some (-44)
  /\ -48 <= -44.
Proof.
  assert (H99 : valueAtRisk99 (riskMetricsOf sqrtMicro rampSeries) = Some (-48))
    by (vm_compute; reflexivity).
  assert (H95 : valueAtRisk95 (riskMetricsOf sqrtMicro rampSeries) = Some (-44))
    by (vm_compute; reflexivity).
  split; [exact H99|]. split; [exact H95|].
  exact (proj1 (C8_VaR99_le_VaR95 sqrtMicro rampSeries) _ _ H99 H95).
Defined.

(** C10.  For every non-empty series whose sorted return at the 95% index
    (respectively the 99% index) is 0, [valueAtRisk95] (respectively
    [valueAtRisk99]) is reported as null, not as 0. *)
Theorem C10_zero_VaR_reported_null (sqrt : Q -> Q) (dailyReturns : list DailyValue) :
  dailyReturns <> [] ->
  let returns := sortedReturns dailyReturns in
  (forall v, at_ returns (var95Index returns) = Some v -> v == 0 ->
             valueAtRisk95 (riskMetricsOf sqrt dailyReturns) = None)
  /\ (forall v, at_ returns (var99Index returns) = Some v -> v == 0 ->
                valueAtRisk99 (riskMetricsOf sqrt dailyReturns) = None).
Proof.
  intros Hne returns.
  destruct (valueAtRisk_of_series sqrt _ Hne) as [E95 E99].
  cbv zeta in *. fold returns in E95, E99. rewrite E95, E99.
  split; intros v -> Hv; simpl; apply truthy_false in Hv; now rewrite Hv.
Qed.

Lemma C10_zero_VaR_reported_null_witness :
  valueAtRisk95 (riskMetricsOf sqrtMicro flatSeries) = None
  /\ valueAtRisk99 (riskMetricsOf sqrtMicro flatSeries) = None.
Proof.
  assert (Hne : flatSeries <> []) by discriminate.
  split.
  - apply (proj1 (C10_zero_VaR_reported_null sqrtMicro flatSeries Hne) 0);
      reflexivity.
  - apply (proj2 (C10_zero_VaR_reported_null sqrtMicro flatSeries Hne) 0);
      reflexivity.
Defined.

(** ** A user without transactions *)

(** The series of a ledger that holds nothing for the user: every day of the
    window is there, valued 0 with return 0. *)
Lemma dailyStep_no_transactions (w : World) (uid : string) (startDate : Z) :
  (forall d, findMany w uid d = Returned []) ->
  forall indices dailyValues previousValue,
    previousValue = None \/ previousValue = Some 0 ->
    fst (fold_left (dailyStep w uid startDate) indices (dailyValues, previousValue))
    = dailyValues
      ++ map (fun i => mkDailyValue (startDate + Z.of_nat i * MS_PER_DAY) 0 0) indices.
Proof.
  intro Hempty.
  induction indices as [|i indices IH]; intros dailyValues previousValue Hprev; simpl.
  - now rewrite app_nil_r.
  - unfold dailyStep at 1, estimatePortfolioValueAtDate. rewrite Hempty.
    change (valuation w (startDate + Z.of_nat i * MS_PER_DAY) (replay [])) with 0.
    rewrite IH by (now right).
    rewrite <- app_assoc. simpl.
    destruct Hprev as [-> | ->]; reflexivity.
Qed.

Lemma calculateDailyReturns_no_transactions (w : World) (uid : string) (days : nat) :
  (forall d, findMany w uid d = Returned []) ->
  calculateDailyReturns w uid days
  = map (fun i => mkDailyValue (dayOf w days i) 0 0) (seq 0 days).
Proof.
  intro Hempty. unfold calculateDailyReturns. cbv zeta.
  rewrite (dailyStep_no_transactions w uid _ Hempty) by (now left).
  reflexivity.
Qed.

Lemma advancedMetricsOf_volatility (sqrt : Q -> Q) (first : DailyValue)
  (rest : list DailyValue) :
  let returns := map return_ (first :: rest) in
  let averageReturn := JS.sum returns / JS.length returns in
  let variance :=
    fold_left (fun sum r => sum + (r - averageReturn) * (r - averageReturn))
      returns 0 / JS.length returns in
  volatility (advancedMetricsOf sqrt (first :: rest))
  = Some (sqrt variance * sqrt 365)
  /\ sharpeRatio (advancedMetricsOf sqrt (first :: rest))
     = if JS.gt (sqrt variance * sqrt 365) 0
       then Some ((averageReturn * 365) / (sqrt variance * sqrt 365))
       else None.
Proof.
  unfold advancedMetricsOf.
  destruct (calculateMaxDrawdown (first :: rest)). split; reflexivity.
Qed.

(** C1, as the code has it.  For a user without transactions whose ledger
    can be read, the series has 365 points valued 0.  The advanced metrics
    have sharpeRatio, maxDrawdown and maxDrawdownPeriod null, but volatility
    0, bestDay and worstDay the first day of the window with return 0, and
    totalTradingDays 365; the risk metrics are null but for
    conditionalValueAtRisk, which is 0. *)
Theorem C1_no_transactions (w : World) (uid : string) :
  (forall d, findMany w uid d = Returned []) ->
  (forall x, x == 0 -> Math_sqrt w x == 0) ->
  let advanced := calculateAdvancedMetrics w uid in
  let risk := calculateRiskMetrics w uid in
  (sharpeRatio advanced = None
   /\ (exists v, volatility advanced = Some v /\ v == 0)
   /\ maxDrawdown advanced = None
   /\ maxDrawdownPeriod advanced = None
   /\ averageReturn advanced == 0
   /\ winRate advanced == 0
   /\ bestDay advanced = Some {| day_date := dayOf w 365 0; day_return := 0 |}
   /\ worstDay advanced = Some {| day_date := dayOf w 365 0; day_return := 0 |}
   /\ totalTradingDays advanced == 365)
  /\ (valueAtRisk95 risk = None
      /\ valueAtRisk99 risk = None
      /\ (exists c, conditionalValueAtRisk risk = Some c /\ c == 0)
      /\ downsideDeviation risk = None
      /\ sortinoRatio risk = None).
Proof.
  intros Hempty Hsqrt advanced risk.
  unfold advanced, risk, calculateAdvancedMetrics, calculateRiskMetrics.
  rewrite (calculateDailyReturns_no_transactions w uid 365 Hempty).
  unfold dayOf.
  generalize (now w) (Math_sqrt w) Hsqrt. clear. intros t sqrt Hsqrt.
  change (seq 0 365) with (0%nat :: seq 1 364).
  rewrite map_cons.
  match goal with
  | |- context [advancedMetricsOf sqrt (?f :: ?r)] =>
      destruct (advancedMetricsOf_volatility sqrt f r) as [Evol Esharpe];
      cbv zeta in Evol, Esharpe;
      set (series := f :: r) in *
  end.
  match type of Evol with
  | _ = Some (sqrt ?v * _) =>
      assert (Hvar : v == 0) by (vm_compute; reflexivity);
      set (variance := v) in *
  end.
  assert (Hvol : sqrt variance * sqrt 365 == 0).
  { rewrite (Hsqrt variance Hvar). ring. }
  split.
  - split.
    { rewrite Esharpe.
      assert (E : JS.gt (sqrt variance * sqrt 365) 0 = false).
      { apply gt_false. rewrite Hvol. apply Qle_refl. }
      now rewrite E. }
    split.
    { eexists. split; [exact Evol | exact Hvol]. }
    clear Evol Esharpe Hvol Hvar. clearbody variance. subst series.
    repeat split; vm_compute; reflexivity.
  - clear. repeat split; try (vm_compute; reflexivity).
    exists (0 # 19). split; [vm_compute; reflexivity | reflexivity].
Qed.

Lemma sqrtMicro_zero (x : Q) : x == 0 -> sqrtMicro x == 0.
Proof.
  intro H. unfold sqrtMicro.
  assert (E : Qfloor (x * 1000000000000) = 0%Z).
  { assert (E0 : x * 1000000000000 == 0) by (rewrite H; ring).
    rewrite E0. reflexivity. }
  rewrite E. reflexivity.
Qed.

(** C1 on a ledger without any transaction. *)
Lemma C1_no_transactions_witness :
  totalTradingDays (calculateAdvancedMetrics emptyWorld "alice") == 365
  /\ sortinoRatio (calculateRiskMetrics emptyWorld "alice") = None.
Proof.
  pose proof (C1_no_transactions emptyWorld "alice"
                (fun d => eq_refl) sqrtMicro_zero) as H.
  cbv zeta in H.
  destruct H as [(_ & _ & _ & _ & _ & _ & _ & _ & Hdays) (_ & _ & _ & _ & Hsortino)].
  split; [exact Hdays | exact Hsortino].
Defined.

(** C1 as stated fails.  On a ledger without any transaction the advanced
    metrics count 365 trading days, not 0; volatility, bestDay and worstDay
    are not null; and the conditional Value-at-Risk is not null. *)
Lemma C1_counterexample :
  (forall d, findMany emptyWorld "alice" d = Returned [])
  /\ totalTradingDays (calculateAdvancedMetrics emptyWorld "alice") == 365
  /\ ~ totalTradingDays (calculateAdvancedMetrics emptyWorld "alice") == 0
  /\ volatility (calculateAdvancedMetrics emptyWorld "alice") <> None
  /\ bestDay (calculateAdvancedMetrics emptyWorld "alice") <> None
  /\ worstDay (calculateAdvancedMetrics emptyWorld "alice") <> None
  /\ conditionalValueAtRisk (calculateRiskMetrics emptyWorld "alice") <> None.
Proof.
  split; [intro d; reflexivity|].
  repeat split; vm_compute; discriminate.
Qed.

(** * Further properties of the engine *)

(** ** Cost-basis tracker *)

Lemma holdingStep_amount (st st' : Totals) (transaction : Transaction.t) :
  holdingStep st transaction = Some st' ->
  totalAmount st' == totalAmount st + signedAmount transaction.
Proof.
  unfold holdingStep, signedAmount.
  destruct (Transaction.type transaction);
    try (intro H; injection H as <-; cbn; ring);
    (destruct (realizes st transaction);
     [ destruct (JS.div _ _); [|discriminate] | ];
     intro H; injection H as <-; cbn; ring).
Qed.

Lemma holdingLoop_amount (transactions : list Transaction.t) :
  forall st st',
    holdingLoop st transactions = Some st' ->
    totalAmount st' == totalAmount st + total signedAmount transactions.
Proof.
  induction transactions as [|t rest IH]; intros st st' H; simpl in *.
  - injection H as <-. ring.
  - destruct (holdingStep st t) as [st1|] eqn:E; [|discriminate].
    rewrite (IH _ _ H), (holdingStep_amount _ _ _ E). ring.
Qed.

(** The amount written back is the sum of the inflows minus the sum of the
    outflows, oversold or not: whenever the recomputation writes finite
    numbers, [currentAmount] is the signed sum of the amounts. *)
Theorem calculateHoldingMetrics_amount (transactions : list Transaction.t)
  (data : HoldingData) :
  calculateHoldingMetrics (Some transactions) = Returned (Some data) ->
  currentAmount data == total signedAmount transactions.
Proof.
  unfold calculateHoldingMetrics. intro H. injection H as H.
  destruct (holdingLoop _ transactions) as [st|] eqn:E; [|discriminate].
  injection H as <-. cbn.
  rewrite (holdingLoop_amount _ _ _ E). cbn. ring.
Qed.

Lemma calculateHoldingMetrics_amount_witness :
  exists data,
    calculateHoldingMetrics (Some scenarioA) = Returned (Some data)
    /\ currentAmount data == total signedAmount scenarioA.
Proof.
  eexists. split; [vm_compute; reflexivity|].
  apply (calculateHoldingMetrics_amount scenarioA). vm_compute. reflexivity.
Defined.

Lemma holdingLoop_skips_staking (transactions : list Transaction.t) :
  forall st,
    holdingLoop st transactions
    = holdingLoop st (filter (fun t => negb (isStaking t)) transactions).
Proof.
  induction transactions as [|t rest IH]; intro st; simpl; [reflexivity|].
  unfold isStaking at 1.
  destruct (Transaction.type t) eqn:Ety; simpl;
    try (destruct (holdingStep st t); [apply IH | reflexivity]);
    unfold holdingStep; rewrite Ety; apply IH.
Qed.

(** STAKE and UNSTAKE transactions are ignored by the recomputation: a
    ledger and the same ledger without them give the same result. *)
Theorem calculateHoldingMetrics_ignores_staking (transactions : list Transaction.t) :
  calculateHoldingMetrics (Some transactions)
  = calculateHoldingMetrics
      (Some (filter (fun t => negb (isStaking t)) transactions)).
Proof.
  unfold calculateHoldingMetrics. now rewrite holdingLoop_skips_staking.
Qed.

Lemma holdingStep_without_sell (st : Totals) (transaction : Transaction.t) :
  Transaction.type transaction <> SELL ->
  exists st',
    holdingStep st transaction = Some st'
    /\ realizedPnL st' = realizedPnL st
    /\ totalCostBasis st' == totalCostBasis st + inflowValue transaction.
Proof.
  intro Hty. unfold holdingStep, inflowValue, valueOf, realizes.
  destruct (Transaction.type transaction); try congruence; cbn;
    eexists; (split; [reflexivity|]); cbn; split; try reflexivity; ring.
Qed.

Lemma holdingLoop_without_sell (transactions : list Transaction.t) :
  Forall (fun t => Transaction.type t <> SELL) transactions ->
  forall st,
  exists st',
    holdingLoop st transactions = Some st'
    /\ realizedPnL st' = realizedPnL st
    /\ totalCostBasis st' == totalCostBasis st + total inflowValue transactions.
Proof.
  induction 1 as [|t rest Ht Hrest IH]; intro st; simpl.
  - exists st. repeat split. ring.
  - destruct (holdingStep_without_sell st t Ht) as (st1 & -> & Hr1 & Hc1).
    destruct (IH st1) as (st' & -> & Hr & Hc).
    exists st'. repeat split.
    + congruence.
    + rewrite Hc, Hc1. ring.
Qed.

(** On a ledger without a SELL the recomputation writes finite numbers,
    a realized P&L of 0, and as cost basis the sum of the inflows' values:
    a TRANSFER_OUT lowers the amount and leaves the cost basis whole. *)
Theorem calculateHoldingMetrics_without_sell (transactions : list Transaction.t) :
  Forall (fun t => Transaction.type t <> SELL) transactions ->
  exists data,
    calculateHoldingMetrics (Some transactions) = Returned (Some data)
    /\ hd_realizedPnL data = 0
    /\ hd_totalCostBasis data == total inflowValue transactions.
Proof.
  intro H. unfold calculateHoldingMetrics.
  destruct (holdingLoop_without_sell _ H (mkTotals 0 0 0)) as (st & -> & Hr & Hc).
  eexists. split; [reflexivity|]. cbn. split; [exact Hr|].
  rewrite Hc. cbn. ring.
Qed.

Lemma calculateHoldingMetrics_without_sell_witness :
  exists data,
    calculateHoldingMetrics (Some soldAfterTransferOut) = Returned (Some data)
    /\ hd_realizedPnL data = 0
    /\ hd_totalCostBasis data == total inflowValue soldAfterTransferOut.
Proof.
  apply (calculateHoldingMetrics_without_sell soldAfterTransferOut).
  repeat constructor; discriminate.
Defined.

Lemma realizes_sell (st : Totals) (transaction : Transaction.t) :
  Transaction.type transaction = SELL -> 0 < totalCostBasis st ->
  realizes st transaction = true.
Proof.
  intros Hty Hcb. unfold realizes. rewrite Hty. simpl. now apply gt_true.
Qed.



Lemma total_nonneg {A} (f : A -> Q) (l : list A) :
  Forall (fun x => 0 <= f x) l -> 0 <= total f l.
Proof.
  induction 1 as [|x l Hx _ IH]; simpl; [apply Qle_refl | lra].
Qed.

(** Sales out of a holding, none of them overselling it: from an amount
    [a > 0] held at a cost basis [c > 0], SELLs of non-negative amounts
    summing to [S < a] leave the amount [a - S] and the cost basis
    [(c / a) * (a - S)], and realize the sum of their proceeds minus
    [(c / a) * S]. *)
Theorem sells_at_average_cost (sells : list Transaction.t) :
  forall st,
    0 < totalAmount st ->
    0 < totalCostBasis st ->
    Forall (fun t => Transaction.type t = SELL /\ 0 <= Transaction.amount t) sells ->
    total Transaction.amount sells < totalAmount st ->
    exists st',
      holdingLoop st sells = Some st'
      /\ totalAmount st' == totalAmount st - total Transaction.amount sells
      /\ totalCostBasis st'
         == totalCostBasis st / totalAmount st
            * (totalAmount st - total Transaction.amount sells)
      /\ realizedPnL st'
         == realizedPnL st
            + (total valueOf sells
               - totalCostBasis st / totalAmount st * total Transaction.amount sells).
Proof.
  induction sells as [|t rest IH]; intros st Ha Hcb Hsells Hsum; simpl in *.
  - exists st. split; [reflexivity|]. repeat split; try ring.
    field. lra.
  - inversion Hsells as [|? ? [Hty Hs] Hrest]; subst.
    assert (Hrest_nn : 0 <= total Transaction.amount rest).
    { apply total_nonneg. eapply Forall_impl; [|exact Hrest].
      intros x [_ Hx]. exact Hx. }
    assert (Hdiv : avgCostDivisor st t == totalAmount st)
      by (unfold avgCostDivisor; ring).
    assert (Hd : ~ avgCostDivisor st t == 0) by (rewrite Hdiv; lra).
    rewrite (holdingStep_sell_realized st t Hty (realizes_sell _ _ Hty Hcb) Hd).
    cbv zeta. fold (valueOf t).
    set (st1 := {| totalCostBasis := _; totalAmount := _; realizedPnL := _ |}).
    assert (Ea1 : totalAmount st1 == totalAmount st - Transaction.amount t)
      by reflexivity.
    assert (Ecb1 : totalCostBasis st1
                   == totalCostBasis st / totalAmount st
                      * (totalAmount st - Transaction.amount t)).
    { unfold st1. cbn. rewrite Hdiv. field. lra. }
    assert (Ha1 : 0 < totalAmount st1) by (rewrite Ea1; lra).
    assert (Havg_pos : 0 < totalCostBasis st / totalAmount st).
    { unfold Qdiv. apply Qmult_lt_0_compat; [exact Hcb|].
      now apply Qinv_lt_0_compat. }
    assert (Hcb1 : 0 < totalCostBasis st1).
    { rewrite Ecb1. apply Qmult_lt_0_compat; [exact Havg_pos | lra]. }
    assert (Eavg : totalCostBasis st1 / totalAmount st1
                   == totalCostBasis st / totalAmount st).
    { rewrite Ecb1, Ea1. field. split; lra. }
    destruct (IH st1 Ha1 Hcb1 Hrest) as (st' & Hloop & Famt & Fcb & Fpnl).
    { rewrite Ea1. lra. }
    exists st'. split; [exact Hloop|].
    rewrite Famt, Fcb, Fpnl, Eavg, Ea1. repeat split; try ring.
    unfold st1. cbn. rewrite Hdiv. ring.
Qed.

Lemma sells_at_average_cost_witness :
  exists st',
    holdingLoop (mkTotals 40000 1 0)
      [Transaction.mk SELL 0.5 (Some 50000) (Some 25000) DAY0 aliceBTC] = Some st'
    /\ totalAmount st' == 1 - 0.5
    /\ totalCostBasis st' == 40000 / 1 * (1 - 0.5)
    /\ realizedPnL st' == 0 + (25000 - 40000 / 1 * 0.5).
Proof.
  destruct (sells_at_average_cost
              [Transaction.mk SELL 0.5 (Some 50000) (Some 25000) DAY0 aliceBTC]
              (mkTotals 40000 1 0))
    as (st' & Hloop & Ha & Hc & Hp).
  - reflexivity.
  - reflexivity.
  - repeat constructor. discriminate.
  - reflexivity.
  - exists st'. split; [exact Hloop|]. cbn in Ha, Hc, Hp.
    repeat split.
    + rewrite Ha. reflexivity.
    + rewrite Hc. reflexivity.
    + rewrite Hp. reflexivity.
Defined.

(** ** Historical valuation estimator *)

Lemma positionOf_replayStep_amount (h : HoldingsAtDate) (t : Transaction.t)
  (symbol : string) :
  amount (positionOf symbol (replayStep h t))
  == amount (positionOf symbol h)
     + (if ofSymbol symbol t then signedAmount t else 0).
Proof.
  unfold ofSymbol.
  destruct (String.eqb (tokenSymbol (Transaction.holding t)) symbol) eqn:E.
  - apply String.eqb_eq in E. subst symbol.
    unfold positionOf at 1.
    pose proof (replayStep_own_symbol h t) as H. cbv zeta in H. rewrite H.
    unfold signedAmount, inflow, outflow.
    destruct (Transaction.type t); cbn; try ring;
      destruct (JS.gt _ 0); cbn; ring.
  - assert (Hne : symbol <> tokenSymbol (Transaction.holding t)).
    { intro Heq. subst symbol. rewrite String.eqb_refl in E. discriminate. }
    unfold positionOf. rewrite (replayStep_other_symbol h t symbol Hne). ring.
Qed.

Lemma replay_amount_from (transactions : list Transaction.t) (symbol : string) :
  forall h,
    amount (positionOf symbol (fold_left replayStep transactions h))
    == amount (positionOf symbol h)
       + total signedAmount (filter (ofSymbol symbol) transactions).
Proof.
  induction transactions as [|t rest IH]; intro h; simpl.
  - ring.
  - rewrite IH, positionOf_replayStep_amount.
    destruct (ofSymbol symbol t); simpl; ring.
Qed.

(** The estimator and the tracker agree on amounts: the amount the replay
    reconstructs for a symbol is the [currentAmount] the tracker writes for
    the transactions of that symbol, whenever the tracker writes finite
    numbers. *)
Theorem replay_amount_agrees_with_tracker (transactions : list Transaction.t)
  (symbol : string) (data : HoldingData) :
  calculateHoldingMetrics (Some (filter (ofSymbol symbol) transactions))
  = Returned (Some data) ->
  amount (positionOf symbol (replay transactions)) == currentAmount data.
Proof.
  unfold calculateHoldingMetrics. intro H. injection H as H.
  destruct (holdingLoop _ (filter (ofSymbol symbol) transactions)) as [st|] eqn:E;
    [|discriminate].
  injection H as <-. cbn.
  rewrite (holdingLoop_amount _ _ _ E).
  unfold replay. rewrite replay_amount_from. cbn. ring.
Qed.

Lemma replay_amount_agrees_with_tracker_witness :
  exists data,
    calculateHoldingMetrics (Some (filter (ofSymbol "ETH") scenarioD))
    = Returned (Some data)
    /\ amount (positionOf "ETH" (replay scenarioD)) == currentAmount data.
Proof.
  eexists. split; [vm_compute; reflexivity|].
  apply (replay_amount_agrees_with_tracker scenarioD "ETH").
  vm_compute. reflexivity.
Defined.

(** An outflow that leaves units scales amount and cost basis alike: the
    average cost of the position is what it was. *)
Theorem outflow_keeps_average_cost (sold : Q) (p : Position) :
  0 <= sold ->
  0 < amount p - sold ->
  amount (outflow sold p) == amount p - sold
  /\ costBasis (outflow sold p) / amount (outflow sold p)
     == costBasis p / amount p.
Proof.
  intros Hs Hrest. unfold outflow.
  assert (E : JS.gt (amount p - sold) 0 = true) by (now apply gt_true).
  rewrite E. cbn. split; [reflexivity|].
  field. repeat split; lra.
Qed.

Lemma outflow_keeps_average_cost_witness :
  amount (outflow 0.5 (mkPosition 1 40000)) == 1 - 0.5
  /\ costBasis (outflow 0.5 (mkPosition 1 40000))
     / amount (outflow 0.5 (mkPosition 1 40000)) == 40000 / 1.
Proof.
  apply (outflow_keeps_average_cost 0.5 (mkPosition 1 40000)); cbn; lra.
Defined.

Lemma update_Forall (P : string * Position -> Prop) (symbol : string)
  (f : Position -> Position) (h : HoldingsAtDate) :
  (forall s p, P (s, p) -> P (s, f p)) ->
  Forall P h -> Forall P (update symbol f h).
Proof.
  intros Hf. induction 1 as [|[s p] h Hp Hh IH]; simpl; [constructor|].
  destruct (String.eqb s symbol); constructor; auto.
Qed.

Lemma ensure_Forall (P : string * Position -> Prop) (symbol : string)
  (h : HoldingsAtDate) :
  P (symbol, mkPosition 0 0) -> Forall P h -> Forall P (ensure symbol h).
Proof.
  intros H0 Hh. unfold ensure. destruct (lookup symbol h); [exact Hh|].
  apply Forall_app. split; [exact Hh | now constructor].
Qed.

Lemma or_else_nonneg (x : option Q) (d : Q) :
  (forall v, x = Some v -> 0 <= v) -> 0 <= d -> 0 <= JS.or_else x d.
Proof.
  intros Hx Hd. destruct x as [v|]; simpl; [|exact Hd].
  destruct (JS.truthy v); [now apply Hx | exact Hd].
Qed.

Lemma outflow_costBasis_nonneg (sold : Q) (p : Position) :
  0 <= sold -> 0 <= costBasis p -> 0 <= costBasis (outflow sold p).
Proof.
  intros Hs Hc. unfold outflow.
  destruct (JS.gt (amount p - sold) 0) eqn:E; cbn; [|exact Hc].
  apply gt_true in E.
  assert (Hshare : 1 - sold / (amount p - sold + sold)
                   == (amount p - sold) / (amount p - sold + sold))
    by (field; lra).
  rewrite Hshare. apply Qmult_le_0_compat; [exact Hc|].
  unfold Qdiv. apply Qmult_le_0_compat; [lra|].
  apply Qinv_le_0_compat. lra.
Qed.

(** The replay of valid transactions keeps every cost basis non-negative. *)
Lemma replayStep_costBasis_nonneg (h : HoldingsAtDate) (t : Transaction.t) :
  validTransaction t ->
  Forall (fun e => 0 <= costBasis (snd e)) h ->
  Forall (fun e => 0 <= costBasis (snd e)) (replayStep h t).
Proof.
  intros (Ha & Hv & Hp) Hh. unfold replayStep.
  assert (He : Forall (fun e => 0 <= costBasis (snd e))
                 (ensure (tokenSymbol (Transaction.holding t)) h)).
  { apply ensure_Forall; [apply Qle_refl | exact Hh]. }
  destruct (Transaction.type t); cbv zeta; try exact He;
    apply update_Forall; try exact He; intros s p Hc; cbn in *.
  all: try (now apply outflow_costBasis_nonneg).
  all: assert (0 <= JS.or_else (Transaction.totalValue t)
                      (JS.or_else (Transaction.pricePerToken t) 0
                       * Transaction.amount t))
         by (apply or_else_nonneg; [exact Hv|];
             apply Qmult_le_0_compat; [|exact Ha];
             apply or_else_nonneg; [exact Hp | apply Qle_refl]);
       lra.
Qed.

Lemma replay_costBasis_nonneg (transactions : list Transaction.t) :
  Forall validTransaction transactions ->
  forall h,
    Forall (fun e => 0 <= costBasis (snd e)) h ->
    Forall (fun e => 0 <= costBasis (snd e)) (fold_left replayStep transactions h).
Proof.
  induction 1 as [|t rest Ht _ IH]; intros h Hh; simpl; [exact Hh|].
  apply IH. now apply replayStep_costBasis_nonneg.
Qed.

Lemma contribution_nonneg (w : World) (targetDate : Z) (symbol : string)
  (holding : Position) :
  (forall s d p, getHistoricalPrice w s d = Returned (Some p) -> 0 <= p) ->
  0 < amount holding -> 0 <= costBasis holding ->
  0 <= contribution w targetDate symbol holding.
Proof.
  intros Horacle Ha Hc. unfold contribution.
  destruct (getHistoricalPrice w symbol targetDate) as [[p|]|e] eqn:E;
    try exact Hc.
  destruct (JS.truthy p); [|exact Hc].
  apply Qmult_le_0_compat; [lra | exact (Horacle _ _ _ E)].
Qed.

Lemma valuation_nonneg (w : World) (targetDate : Z) (h : HoldingsAtDate) :
  (forall s d p, getHistoricalPrice w s d = Returned (Some p) -> 0 <= p) ->
  Forall (fun e => 0 <= costBasis (snd e)) h ->
  0 <= valuation w targetDate h.
Proof.
  intros Horacle. induction 1 as [|[s p] h Hp Hh IH].
  - apply Qle_refl.
  - unfold valuation. simpl. rewrite fold_valuationStep_acc.
    destruct (JS.gt (amount p) 0) eqn:E.
    + apply gt_true in E.
      pose proof (contribution_nonneg w targetDate s p Horacle E Hp). lra.
    + lra.
Qed.

(** On a ledger of valid transactions, with an oracle that quotes no
    negative price, the valuation at a date is never negative. *)
Theorem estimatePortfolioValueAtDate_nonneg (w : World) (uid : string)
  (targetDate : Z) (totalValue : Q) :
  validWorld w uid ->
  estimatePortfolioValueAtDate w uid targetDate = Returned totalValue ->
  0 <= totalValue.
Proof.
  intros [Hledger Horacle]. unfold estimatePortfolioValueAtDate.
  destruct (findMany w uid targetDate) as [transactions|e] eqn:E; [|discriminate].
  intro H. injection H as <-.
  apply valuation_nonneg; [exact Horacle|].
  apply replay_costBasis_nonneg; [exact (Hledger _ _ E) | constructor].
Qed.

Lemma insertByDate_Forall (P : Transaction.t -> Prop) (t : Transaction.t)
  (l : list Transaction.t) :
  P t -> Forall P l -> Forall P (insertByDate t l).
Proof.
  intros Ht Hl. induction Hl as [|x l Hx Hl IH]; simpl.
  - now constructor.
  - destruct (Transaction.date t <=? Transaction.date x)%Z.
    + constructor; [exact Ht | now constructor].
    + constructor; [exact Hx | exact IH].
Qed.

Lemma orderByDate_Forall (P : Transaction.t -> Prop) (l : list Transaction.t) :
  Forall P l -> Forall P (orderByDate l).
Proof.
  induction 1 as [|x l Hx Hl IH]; simpl;
    [constructor | now apply insertByDate_Forall].
Qed.

(** What the table query returns is taken from the table. *)
Lemma tableFindMany_Forall (P : Transaction.t -> Prop) (table : list Transaction.t)
  (uid : string) (d : Z) (transactions : list Transaction.t) :
  Forall P table ->
  tableFindMany table uid d = Returned transactions ->
  Forall P transactions.
Proof.
  intros Htable H. unfold tableFindMany in H. injection H as <-.
  apply orderByDate_Forall. rewrite Forall_forall in *.
  intros x Hx. apply filter_In in Hx. now apply Htable.
Qed.

Lemma worldD_valid : validWorld worldD "alice".
Proof.
  split.
  - intros d transactions H.
    apply (tableFindMany_Forall validTransaction scenarioD "alice" d); [|exact H].
    repeat constructor; cbn; try discriminate;
      intros v Hv; injection Hv as <-; discriminate.
  - intros symbol d p. cbn. unfold oracleD.
    destruct (String.eqb symbol "BTC"); intro H; [|discriminate].
    injection H as <-. discriminate.
Qed.

Lemma estimatePortfolioValueAtDate_nonneg_witness :
  estimatePortfolioValueAtDate worldD "alice" (DAY0 + 5) = Returned 5030
  /\ 0 <= 5030.
Proof.
  assert (H : estimatePortfolioValueAtDate worldD "alice" (DAY0 + 5) = Returned 5030)
    by (vm_compute; reflexivity).
  split; [exact H|].
  exact (estimatePortfolioValueAtDate_nonneg worldD "alice" (DAY0 + 5) 5030
           worldD_valid H).
Defined.

Lemma valuation_cons (w : World) (targetDate : Z) (e : string * Position)
  (l : HoldingsAtDate) :
  valuation w targetDate (e :: l)
  == valuationStep w targetDate 0 e + valuation w targetDate l.
Proof.
  unfold valuation at 1. simpl. apply fold_valuationStep_acc.
Qed.

(** The valuation does not depend on the order in which the symbols were
    first seen, the order [Object.entries] walks them in. *)
Theorem valuation_Permutation (w : World) (targetDate : Z) (l l' : HoldingsAtDate) :
  Permutation l l' ->
  valuation w targetDate l == valuation w targetDate l'.
Proof.
  induction 1 as [|e l l' _ IH|e1 e2 l|l1 l2 l3 _ IH1 _ IH2].
  - reflexivity.
  - rewrite !valuation_cons, IH. reflexivity.
  - rewrite !valuation_cons. ring.
  - now rewrite IH1.
Qed.

Lemma valuation_Permutation_witness :
  valuation worldD DAY0 [("ETH"%string, mkPosition 2 5000); ("BTC"%string, mkPosition 1 100)]
  == valuation worldD DAY0 [("BTC"%string, mkPosition 1 100); ("ETH"%string, mkPosition 2 5000)].
Proof.
  apply (valuation_Permutation worldD DAY0). apply perm_swap.
Defined.

(** ** Daily return series builder *)

Lemma lastOf_snoc {A} (l : list A) (x : A) : lastOf (l ++ [x]) = Some x.
Proof. unfold lastOf. now rewrite rev_app_distr. Qed.

(** Two neighbours [p], [q] of a list that ends in [x]: either [q] is [x],
    or they were neighbours before [x] was pushed. *)
Lemma neighbours_snoc {A} (l l1 l2 : list A) (x p q : A) :
  l ++ [x] = l1 ++ p :: q :: l2 ->
  (l2 = [] /\ q = x /\ l = l1 ++ [p])
  \/ exists l2', l2 = l2' ++ [x] /\ l = l1 ++ p :: q :: l2'.
Proof.
  intro E. induction l2 as [|z l2 _] using rev_ind.
  - left.
    replace (l1 ++ [p; q]) with ((l1 ++ [p]) ++ [q]) in E
      by (rewrite <- app_assoc; reflexivity).
    apply app_inj_tail in E. destruct E as [-> ->]. repeat split.
  - right. exists l2.
    replace (l1 ++ p :: q :: l2 ++ [z]) with ((l1 ++ p :: q :: l2) ++ [z]) in E
      by (rewrite <- app_assoc; reflexivity).
    apply app_inj_tail in E. destruct E as [-> ->]. split; reflexivity.
Qed.

Lemma dailyStep_chain (w : World) (uid : string) (startDate : Z)
  (indices : list nat) :
  forall st,
    snd st = option_map value (lastOf (fst st)) ->
    (forall l1 p q l2, fst st = l1 ++ p :: q :: l2 ->
                       return_ q = returnAfter (value p) (value q)) ->
    forall l1 p q l2,
      fst (fold_left (dailyStep w uid startDate) indices st) = l1 ++ p :: q :: l2 ->
      return_ q = returnAfter (value p) (value q).
Proof.
  induction indices as [|i indices IH]; intros [dailyValues previousValue] Hprev Hchain;
    simpl in *.
  - exact Hchain.
  - apply IH; unfold dailyStep;
      destruct (estimatePortfolioValueAtDate w uid (startDate + Z.of_nat i * MS_PER_DAY)%Z)
        as [portfolioValue|e]; simpl; try assumption.
    + now rewrite lastOf_snoc.
    + intros l1 p q l2 E.
      apply neighbours_snoc in E.
      destruct E as [(_ & -> & ->) | (l2' & _ & ->)].
      * rewrite lastOf_snoc in Hprev. simpl in Hprev. subst previousValue.
        reflexivity.
      * eapply Hchain. reflexivity.
Qed.

(** Every point of the series after the first carries the percentage change
    against the point before it in the series, a day whose valuation threw
    being passed over, and 0 when that previous value is not positive. *)
Theorem calculateDailyReturns_returns (w : World) (uid : string) (days : nat)
  (l1 l2 : list DailyValue) (p q : DailyValue) :
  calculateDailyReturns w uid days = l1 ++ p :: q :: l2 ->
  return_ q
  = if JS.gt (value p) 0
    then ((value q - value p) / value p) * 100
    else 0.
Proof.
  unfold calculateDailyReturns. cbv zeta.
  apply dailyStep_chain; simpl; [reflexivity|].
  intros [|? ?] ? ? ?; discriminate.
Qed.

Lemma calculateDailyReturns_returns_witness :
  calculateDailyReturns emptyWorld "alice" 2
  = [] ++ mkDailyValue (dayOf emptyWorld 2 0) 0 0
       :: mkDailyValue (dayOf emptyWorld 2 1) 0 0 :: []
  /\ return_ (mkDailyValue (dayOf emptyWorld 2 1) 0 0)
     = if JS.gt (value (mkDailyValue (dayOf emptyWorld 2 0) 0 0)) 0
       then ((value (mkDailyValue (dayOf emptyWorld 2 1) 0 0)
              - value (mkDailyValue (dayOf emptyWorld 2 0) 0 0))
             / value (mkDailyValue (dayOf emptyWorld 2 0) 0 0)) * 100
       else 0.
Proof.
  assert (H : calculateDailyReturns emptyWorld "alice" 2
              = [] ++ mkDailyValue (dayOf emptyWorld 2 0) 0 0
                   :: mkDailyValue (dayOf emptyWorld 2 1) 0 0 :: [])
    by (vm_compute; reflexivity).
  split; [exact H|].
  exact (calculateDailyReturns_returns emptyWorld "alice" 2 [] [] _ _ H).
Defined.

Lemma seq_sorted (n : nat) : forall a, StronglySorted lt (seq a n).
Proof.
  induction n as [|n IH]; intro a; simpl; constructor; [apply IH|].
  apply Forall_forall. intros x Hx. apply in_seq in Hx. lia.
Qed.

Lemma filter_sorted {A} (R : A -> A -> Prop) (f : A -> bool) (l : list A) :
  StronglySorted R l -> StronglySorted R (filter f l).
Proof.
  induction 1 as [|x l Hs IH Hall]; simpl; [constructor|].
  destruct (f x); [|exact IH].
  constructor; [exact IH|].
  rewrite Forall_forall in *. intros y Hy. apply filter_In in Hy. now apply Hall.
Qed.

Lemma map_sorted {A B} (R : A -> A -> Prop) (S : B -> B -> Prop) (f : A -> B)
  (l : list A) :
  (forall x y, R x y -> S (f x) (f y)) ->
  StronglySorted R l -> StronglySorted S (map f l).
Proof.
  intro Hf. induction 1 as [|x l Hs IH Hall]; simpl; constructor; [exact IH|].
  rewrite Forall_forall in *. intros y Hy. apply in_map_iff in Hy.
  destruct Hy as [z [<- Hz]]. apply Hf. now apply Hall.
Qed.

(** The series is in chronological order, every point strictly later than
    the one before: no day appears twice. *)
Theorem calculateDailyReturns_chronological (w : World) (uid : string) (days : nat) :
  StronglySorted Z.lt (map date (calculateDailyReturns w uid days)).
Proof.
  unfold calculateDailyReturns. cbv zeta. rewrite dailyStep_dates. simpl.
  apply (map_sorted lt); [|apply filter_sorted, seq_sorted].
  intros x y Hxy. unfold MS_PER_DAY. lia.
Qed.

(** ** Maximum drawdown *)

Lemma drawdownLoop_period (days : list DailyValue) :
  forall st,
    0 <= dd_maxDrawdown st ->
    (dd_maxDrawdownPeriod st = None <-> dd_maxDrawdown st <= 0) ->
    let st' := fold_left drawdownStep days st in
    0 <= dd_maxDrawdown st'
    /\ (dd_maxDrawdownPeriod st' = None <-> dd_maxDrawdown st' <= 0).
Proof.
  induction days as [|day days IH]; intros st Hnn Hiff; simpl.
  - split; assumption.
  - apply IH; unfold drawdownStep;
      destruct (JS.gt (drawdownAt (peakAfter st day) day) (dd_maxDrawdown st)) eqn:E;
      cbn; try assumption.
    + apply gt_true in E. lra.
    + apply gt_true in E. split; [discriminate | intro; lra].
Qed.

(** [maxDrawdown] and [maxDrawdownPeriod] are null together: a drawdown is
    reported exactly when a period is. *)
Theorem calculateMaxDrawdown_period_iff (dailyReturns : list DailyValue) :
  fst (calculateMaxDrawdown dailyReturns) = None
  <-> snd (calculateMaxDrawdown dailyReturns) = None.
Proof.
  destruct dailyReturns as [|first rest]; [simpl; tauto|].
  unfold calculateMaxDrawdown.
  destruct (drawdownLoop_period (first :: rest)
              {| dd_maxDrawdown := 0; dd_maxDrawdownPeriod := None;
                 dd_peak := value first; dd_peakDate := date first |})
    as [Hnn Hiff]; cbn [dd_maxDrawdown dd_maxDrawdownPeriod].
  - apply Qle_refl.
  - split; [intros _; apply Qle_refl | reflexivity].
  - cbv zeta in Hnn, Hiff. cbn [fst snd].
    destruct (JS.gt (dd_maxDrawdown _) 0) eqn:E.
    + apply gt_true in E. split; [discriminate|].
      intro H. apply Hiff in H. lra.
    + apply gt_false in E. split; [intros _; now apply Hiff | reflexivity].
Qed.

Lemma drawdownAt_le_100 (peak : Q) (day : DailyValue) :
  0 <= value day -> drawdownAt peak day <= 100.
Proof.
  intro Hv. unfold drawdownAt. destruct (JS.gt peak 0) eqn:E; [|lra].
  apply gt_true in E.
  assert (H : (peak - value day) / peak * 100 == 100 - value day / peak * 100)
    by (field; lra).
  rewrite H.
  assert (0 <= value day / peak * 100).
  { apply Qmult_le_0_compat; [|lra].
    unfold Qdiv. apply Qmult_le_0_compat; [exact Hv|].
    apply Qinv_le_0_compat. lra. }
  lra.
Qed.

Lemma drawdownLoop_le_100 (days : list DailyValue) :
  Forall (fun p => 0 <= value p) days ->
  forall st,
    dd_maxDrawdown st <= 100 ->
    dd_maxDrawdown (fold_left drawdownStep days st) <= 100.
Proof.
  induction 1 as [|day days Hday _ IH]; intros st Hst; simpl; [exact Hst|].
  apply IH. unfold drawdownStep.
  destruct (JS.gt (drawdownAt (peakAfter st day) day) (dd_maxDrawdown st));
    cbn; [now apply drawdownAt_le_100 | exact Hst].
Qed.

(** A series of non-negative values never shows a drawdown above 100%. *)
Theorem calculateMaxDrawdown_le_100 (dailyReturns : list DailyValue) (d : Q) :
  Forall (fun p => 0 <= value p) dailyReturns ->
  fst (calculateMaxDrawdown dailyReturns) = Some d ->
  d <= 100.
Proof.
  intros Hpos. destruct dailyReturns as [|first rest]; [discriminate|].
  assert (Hle : dd_maxDrawdown
                  (fold_left drawdownStep (first :: rest)
                     {| dd_maxDrawdown := 0; dd_maxDrawdownPeriod := None;
                        dd_peak := value first; dd_peakDate := date first |})
                <= 100).
  { apply drawdownLoop_le_100; [exact Hpos | cbn; lra]. }
  unfold calculateMaxDrawdown. cbv zeta. cbn [fst].
  destruct (JS.gt _ 0); [|discriminate].
  intro H. injection H as <-. exact Hle.
Qed.

Lemma calculateMaxDrawdown_le_100_witness :
  exists d, fst (calculateMaxDrawdown scenarioC) = Some d /\ d <= 100.
Proof.
  eexists. split; [vm_compute; reflexivity|].
  apply (calculateMaxDrawdown_le_100 scenarioC).
  - repeat constructor; discriminate.
  - vm_compute. reflexivity.
Defined.

(** What the loop knows of its peak and of what it reports, once the points
    [seen] are behind it: the peak is held by a point of [seen] that no
    point of [seen] exceeds, and a positive drawdown is the decline, at a
    later point [q], from a point [p] that no point up to [q] exceeds, the
    period running from [p] to [q]. *)
Lemma drawdownLoop_report (rest : list DailyValue) :
  forall seen st,
    (exists p, In p seen /\ dd_peak st = value p /\ dd_peakDate st = date p
               /\ forall r, In r seen -> value r <= value p) ->
    (0 <= dd_maxDrawdown st) ->
    (0 < dd_maxDrawdown st ->
     exists l1 p l2 q l3,
       seen = l1 ++ p :: l2 ++ q :: l3
       /\ dd_maxDrawdownPeriod st = Some {| start := date p; end_ := date q |}
       /\ dd_maxDrawdown st = drawdownAt (value p) q
       /\ forall r, In r (l1 ++ p :: l2 ++ [q]) -> value r <= value p) ->
    let st' := fold_left drawdownStep rest st in
    0 < dd_maxDrawdown st' ->
    exists l1 p l2 q l3,
      seen ++ rest = l1 ++ p :: l2 ++ q :: l3
      /\ dd_maxDrawdownPeriod st' = Some {| start := date p; end_ := date q |}
      /\ dd_maxDrawdown st' = drawdownAt (value p) q
      /\ forall r, In r (l1 ++ p :: l2 ++ [q]) -> value r <= value p.
Proof.
  induction rest as [|day rest IH]; intros seen st Hpeak Hnn Hrep; simpl.
  - rewrite app_nil_r. exact Hrep.
  - replace (seen ++ day :: rest) with ((seen ++ [day]) ++ rest)
      by (rewrite <- app_assoc; reflexivity).
    destruct Hpeak as (pk & Hpk_in & Hpk & Hpkd & Hmax).
    assert (Hkeep :
      0 < dd_maxDrawdown st ->
      exists l1 p l2 q l3,
        seen ++ [day] = l1 ++ p :: l2 ++ q :: l3
        /\ dd_maxDrawdownPeriod st = Some {| start := date p; end_ := date q |}
        /\ dd_maxDrawdown st = drawdownAt (value p) q
        /\ forall r, In r (l1 ++ p :: l2 ++ [q]) -> value r <= value p).
    { intro Hpos. destruct (Hrep Hpos) as (l1 & p & l2 & q & l3 & -> & Hper & Hdd & Hle).
      exists l1, p, l2, q, (l3 ++ [day]). repeat split; try assumption.
      rewrite <- app_assoc. simpl. rewrite <- app_assoc. reflexivity. }
    apply IH; unfold drawdownStep, peakAfter;
      destruct (JS.gt (value day) (dd_peak st)) eqn:Erise.
    + (* peak holder: the new point *)
      exists day. destruct (JS.gt _ (dd_maxDrawdown st)); cbn;
        (split; [apply in_or_app; right; now left|]);
        (split; [reflexivity|]); (split; [reflexivity|]);
        apply gt_true in Erise; intros r Hr; apply in_app_or in Hr;
        (destruct Hr as [Hr | [<- | []]]; [|apply Qle_refl]);
        pose proof (Hmax r Hr); rewrite Hpk in Erise; lra.
    + exists pk. destruct (JS.gt _ (dd_maxDrawdown st)); cbn;
        (split; [apply in_or_app; now left|]);
        (split; [exact Hpk|]); (split; [exact Hpkd|]);
        apply gt_false in Erise; intros r Hr; apply in_app_or in Hr;
        (destruct Hr as [Hr | [<- | []]]; [now apply Hmax|]);
        rewrite Hpk in Erise; exact Erise.
    + destruct (JS.gt _ (dd_maxDrawdown st)) eqn:E; cbn; [|exact Hnn].
      apply gt_true in E. lra.
    + destruct (JS.gt _ (dd_maxDrawdown st)) eqn:E; cbn; [|exact Hnn].
      apply gt_true in E. lra.
    + (* a new peak reports nothing new *)
      apply gt_true in Erise.
      assert (Hdd : drawdownAt (value day) day == 0).
      { unfold drawdownAt. destruct (JS.gt (value day) 0); [|reflexivity].
        assert (E0 : value day - value day == 0) by ring.
        rewrite E0. unfold Qdiv. ring. }
      assert (Hno : JS.gt (drawdownAt (value day) day) (dd_maxDrawdown st) = false).
      { apply gt_false. rewrite Hdd. exact Hnn. }
      rewrite Hno. cbn. exact Hkeep.
    + apply gt_false in Erise.
      destruct (JS.gt (drawdownAt (dd_peak st) day) (dd_maxDrawdown st)) eqn:E;
        cbn; [|exact Hkeep].
      intros _. apply in_split in Hpk_in. destruct Hpk_in as (l1 & l2 & Hseen).
      exists l1, pk, l2, day, []. repeat split.
      * rewrite Hseen, <- app_assoc. reflexivity.
      * now rewrite Hpkd.
      * now rewrite Hpk.
      * intros r Hr.
        replace (l1 ++ pk :: l2 ++ [day]) with (seen ++ [day]) in Hr
          by (rewrite Hseen, <- app_assoc; reflexivity).
        apply in_app_or in Hr. destruct Hr as [Hr | [<- | []]]; [now apply Hmax|].
        rewrite Hpk in Erise. exact Erise.
Qed.

(** The first iteration changes nothing. *)
Lemma drawdownStep_first_eq (first : DailyValue) :
  drawdownStep
    {| dd_maxDrawdown := 0; dd_maxDrawdownPeriod := None;
       dd_peak := value first; dd_peakDate := date first |} first
  = {| dd_maxDrawdown := 0; dd_maxDrawdownPeriod := None;
       dd_peak := value first; dd_peakDate := date first |}.
Proof.
  unfold drawdownStep, peakAfter. cbn.
  assert (E : JS.gt (value first) (value first) = false)
    by (apply gt_false; apply Qle_refl).
  rewrite E.
  assert (Hdd : drawdownAt (value first) first == 0).
  { unfold drawdownAt. destruct (JS.gt (value first) 0); [|reflexivity].
    assert (E0 : value first - value first == 0) by ring.
    rewrite E0. unfold Qdiv. ring. }
  assert (Hno : JS.gt (drawdownAt (value first) first) 0 = false).
  { apply gt_false. rewrite Hdd. apply Qle_refl. }
  now rewrite Hno.
Qed.

(** What [calculateMaxDrawdown] reports is a decline of the series: a
    reported drawdown [d] comes with a period from a point [p] to a later
    point [q], where [p] has a positive value that no point up to [q]
    exceeds, and [d] is the decline from [p] to [q] in percent of [p]. *)
Theorem calculateMaxDrawdown_attained (dailyReturns : list DailyValue) (d : Q) :
  fst (calculateMaxDrawdown dailyReturns) = Some d ->
  exists l1 p l2 q l3,
    dailyReturns = l1 ++ p :: l2 ++ q :: l3
    /\ snd (calculateMaxDrawdown dailyReturns)
       = Some {| start := date p; end_ := date q |}
    /\ (forall r, In r (l1 ++ p :: l2 ++ [q]) -> value r <= value p)
    /\ 0 < value p
    /\ d == (value p - value q) / value p * 100.
Proof.
  destruct dailyReturns as [|first rest]; [discriminate|].
  unfold calculateMaxDrawdown. cbv zeta. simpl fold_left.
  rewrite drawdownStep_first_eq.
  pose proof (drawdownLoop_report rest [first]
                {| dd_maxDrawdown := 0; dd_maxDrawdownPeriod := None;
                   dd_peak := value first; dd_peakDate := date first |}) as H.
  cbv zeta in H.
  set (st := fold_left drawdownStep rest _) in *.
  cbn [fst snd].
  destruct (JS.gt (dd_maxDrawdown st) 0) eqn:E; [|discriminate].
  apply gt_true in E. intro Hd. injection Hd as <-.
  destruct H as (l1 & p & l2 & q & l3 & Hs & Hper & Hdd & Hle).
  - exists first. cbn. repeat split; try (now left).
    intros r [<- | []]. apply Qle_refl.
  - cbn. apply Qle_refl.
  - cbn. intro H0. exfalso. apply (Qlt_irrefl 0 H0).
  - exact E.
  - exists l1, p, l2, q, l3. split; [exact Hs|]. split; [exact Hper|].
    split; [exact Hle|].
    rewrite Hdd in E |- *. unfold drawdownAt in *.
    destruct (JS.gt (value p) 0) eqn:Ep.
    + apply gt_true in Ep. split; [exact Ep | reflexivity].
    + exfalso. apply (Qlt_irrefl 0 E).
Qed.

(** On Scenario C the drawdown is the decline from 110 to 99: 10%. *)
Lemma calculateMaxDrawdown_attained_witness :
  exists d, fst (calculateMaxDrawdown scenarioC) = Some d /\ d == 10.
Proof.
  eexists. split; [vm_compute; reflexivity|].
  destruct (calculateMaxDrawdown_attained scenarioC (11 * / 110 * 100))
    as (l1 & p & l2 & q & l3 & _).
  - vm_compute. reflexivity.
  - reflexivity.
Defined.

(** ** Advanced metrics *)

Lemma dailyStep_values_nonneg (w : World) (uid : string) (startDate : Z)
  (indices : list nat) :
  (forall d v, estimatePortfolioValueAtDate w uid d = Returned v -> 0 <= v) ->
  forall st,
    Forall (fun p => 0 <= value p) (fst st) ->
    Forall (fun p => 0 <= value p)
      (fst (fold_left (dailyStep w uid startDate) indices st)).
Proof.
  intro Hest. induction indices as [|i indices IH]; intros [dv prev] H; simpl in *.
  - exact H.
  - apply IH. unfold dailyStep.
    destruct (estimatePortfolioValueAtDate w uid (startDate + Z.of_nat i * MS_PER_DAY)%Z)
      as [v|e] eqn:E; simpl; [|exact H].
    apply Forall_app. split; [exact H|]. constructor; [|constructor].
    cbn. exact (Hest _ _ E).
Qed.

Lemma estimate_nonneg_valid (w : World) (uid : string) :
  validWorld w uid ->
  forall d v, estimatePortfolioValueAtDate w uid d = Returned v -> 0 <= v.
Proof.
  intros [Hledger Horacle] d v. unfold estimatePortfolioValueAtDate.
  destruct (findMany w uid d) as [transactions|e] eqn:E; [|discriminate].
  intro H. injection H as <-.
  apply valuation_nonneg; [exact Horacle|].
  apply replay_costBasis_nonneg; [exact (Hledger _ _ E) | constructor].
Qed.

Lemma advancedMetricsOf_fields (sqrt : Q -> Q) (first : DailyValue)
  (rest : list DailyValue) :
  let dailyReturns := first :: rest in
  let returns := map return_ dailyReturns in
  let advanced := advancedMetricsOf sqrt dailyReturns in
  maxDrawdown advanced = fst (calculateMaxDrawdown dailyReturns)
  /\ maxDrawdownPeriod advanced = snd (calculateMaxDrawdown dailyReturns)
  /\ bestDay advanced
     = dayAt dailyReturns returns (indexOf (Math_max (return_ first) returns) returns)
  /\ worstDay advanced
     = dayAt dailyReturns returns (indexOf (Math_min (return_ first) returns) returns)
  /\ winRate advanced
     = JS.length (filter (fun r => JS.gt r 0) returns) / JS.length returns * 100
  /\ totalTradingDays advanced = JS.length dailyReturns.
Proof.
  cbv zeta. unfold advancedMetricsOf.
  destruct (calculateMaxDrawdown (first :: rest)).
  cbn [maxDrawdown maxDrawdownPeriod bestDay worstDay winRate totalTradingDays fst snd].
  repeat split. unfold JS.length. now rewrite length_map.
Qed.

(** On a valid world the drawdown of the advanced metrics is null exactly
    when the series built for the user never declines from its running
    peak. *)
Theorem calculateAdvancedMetrics_maxDrawdown_null_iff (w : World) (uid : string) :
  validWorld w uid ->
  (maxDrawdown (calculateAdvancedMetrics w uid) = None
   <-> ~ Declined (calculateDailyReturns w uid 365)).
Proof.
  intro Hvalid. unfold calculateAdvancedMetrics.
  assert (Hpos : forall p, In p (calculateDailyReturns w uid 365) -> 0 <= value p).
  { apply Forall_forall. unfold calculateDailyReturns. cbv zeta.
    apply dailyStep_values_nonneg; [now apply estimate_nonneg_valid | constructor]. }
  destruct (calculateDailyReturns w uid 365) as [|first rest].
  - simpl. split; [|reflexivity].
    intros _ (l1 & p & l2 & q & l3 & E & _). destruct l1; discriminate.
  - destruct (advancedMetricsOf_fields (Math_sqrt w) first rest) as [-> _].
    destruct (calculateMaxDrawdown_inv first rest) as [st [Hinv ->]].
    destruct (JS.gt (dd_maxDrawdown st) 0) eqn:E.
    + apply gt_true in E. split; [discriminate|].
      intro Hno. exfalso. apply Hno. now apply (inv_sound _ _ Hinv).
    + apply gt_false in E. split; [|reflexivity].
      intros _ Hd. pose proof (inv_complete _ _ Hinv Hpos Hd). lra.
Qed.

Lemma emptyWorld_valid : validWorld emptyWorld "alice".
Proof.
  split.
  - intros d transactions H.
    apply (tableFindMany_Forall validTransaction [] "alice" d); [constructor | exact H].
  - intros symbol d p. cbn. unfold oracleD.
    destruct (String.eqb symbol "BTC"); intro H; [|discriminate].
    injection H as <-. discriminate.
Qed.

Lemma calculateAdvancedMetrics_maxDrawdown_null_iff_witness :
  maxDrawdown (calculateAdvancedMetrics emptyWorld "alice") = None
  <-> ~ Declined (calculateDailyReturns emptyWorld "alice" 365).
Proof.
  apply (calculateAdvancedMetrics_maxDrawdown_null_iff emptyWorld "alice").
  exact emptyWorld_valid.
Defined.

Lemma Math_max_spec (xs : list Q) :
  forall x,
    x <= Math_max x xs
    /\ Forall (fun y => y <= Math_max x xs) xs
    /\ (Math_max x xs = x \/ In (Math_max x xs) xs).
Proof.
  unfold Math_max.
  induction xs as [|y xs IH]; intro x; simpl.
  - repeat split; [apply Qle_refl | constructor | now left].
  - destruct (JS.gt y x) eqn:E.
    + apply gt_true in E. destruct (IH y) as (H1 & H2 & H3).
      repeat split; [lra | constructor; assumption |].
      destruct H3 as [-> | H3]; right; [now left | now right].
    + apply gt_false in E. destruct (IH x) as (H1 & H2 & H3).
      repeat split; [exact H1 | constructor; [lra | exact H2] |].
      destruct H3 as [H3 | H3]; [now left | right; now right].
Qed.

Lemma Math_min_spec (xs : list Q) :
  forall x,
    Math_min x xs <= x
    /\ Forall (fun y => Math_min x xs <= y) xs
    /\ (Math_min x xs = x \/ In (Math_min x xs) xs).
Proof.
  unfold Math_min.
  induction xs as [|y xs IH]; intro x; simpl.
  - repeat split; [apply Qle_refl | constructor | now left].
  - destruct (JS.lt y x) eqn:E.
    + apply lt_true in E. destruct (IH y) as (H1 & H2 & H3).
      repeat split; [lra | constructor; assumption |].
      destruct H3 as [-> | H3]; right; [now left | now right].
    + apply lt_false in E. destruct (IH x) as (H1 & H2 & H3).
      repeat split; [exact H1 | constructor; [lra | exact H2] |].
      destruct H3 as [H3 | H3]; [now left | right; now right].
Qed.

Lemma indexOfFrom_found (v : Q) (xs : list Q) :
  In v xs ->
  forall k, exists i y,
    indexOfFrom k v xs = Some (k + i)%nat
    /\ nth_error xs i = Some y /\ y == v.
Proof.
  induction xs as [|x xs IH]; intros Hin k; [destruct Hin|].
  simpl. destruct (Qeq_bool x v) eqn:E.
  - exists 0%nat, x. rewrite Nat.add_0_r. repeat split.
    now apply Qeq_bool_iff.
  - destruct Hin as [-> | Hin].
    + rewrite (proj2 (Qeq_bool_iff v v) (Qeq_refl v)) in E. discriminate.
    + destruct (IH Hin (S k)) as (i & y & Hi & Hn & Hy).
      exists (S i), y. repeat split; try assumption.
      rewrite Hi. f_equal. lia.
Qed.

Lemma dayAt_found (dailyReturns : list DailyValue) (v : Q) :
  In v (map return_ dailyReturns) ->
  exists p,
    In p dailyReturns
    /\ return_ p == v
    /\ dayAt dailyReturns (map return_ dailyReturns)
         (indexOf v (map return_ dailyReturns))
       = Some {| day_date := date p; day_return := return_ p |}.
Proof.
  intro Hin. destruct (indexOfFrom_found v _ Hin 0%nat) as (i & y & Hi & Hn & Hy).
  unfold indexOf. rewrite Hi. simpl. unfold dayAt. rewrite Hn.
  rewrite nth_error_map in Hn.
  destruct (nth_error dailyReturns i) as [p|] eqn:Ep; [|discriminate].
  injection Hn as <-.
  exists p. repeat split; [now apply nth_error_In in Ep | exact Hy].
Qed.

(** For a series that is not empty [bestDay] and [worstDay] are never null:
    each is a day of the series, with its own return; no day of the series
    has a higher return than [bestDay], none a lower one than [worstDay]. *)
Theorem bestDay_worstDay (sqrt : Q -> Q) (dailyReturns : list DailyValue) :
  dailyReturns <> [] ->
  let advanced := advancedMetricsOf sqrt dailyReturns in
  (exists p,
      In p dailyReturns
      /\ bestDay advanced = Some {| day_date := date p; day_return := return_ p |}
      /\ forall r, In r dailyReturns -> return_ r <= return_ p)
  /\ (exists p,
         In p dailyReturns
         /\ worstDay advanced = Some {| day_date := date p; day_return := return_ p |}
         /\ forall r, In r dailyReturns -> return_ p <= return_ r).
Proof.
  intros Hne advanced. unfold advanced.
  destruct dailyReturns as [|first rest]; [congruence|].
  destruct (advancedMetricsOf_fields sqrt first rest) as (_ & _ & -> & -> & _).
  set (returns := map return_ (first :: rest)).
  split.
  - destruct (Math_max_spec returns (return_ first)) as (_ & Hall & Hin).
    assert (Hin' : In (Math_max (return_ first) returns) returns).
    { destruct Hin as [-> | Hin]; [now left | exact Hin]. }
    destruct (dayAt_found (first :: rest) _ Hin') as (p & Hp & Hv & Hday).
    exists p. split; [exact Hp|]. split; [exact Hday|].
    intros r Hr. rewrite Hv. rewrite Forall_forall in Hall. apply Hall.
    unfold returns. now apply in_map.
  - destruct (Math_min_spec returns (return_ first)) as (_ & Hall & Hin).
    assert (Hin' : In (Math_min (return_ first) returns) returns).
    { destruct Hin as [-> | Hin]; [now left | exact Hin]. }
    destruct (dayAt_found (first :: rest) _ Hin') as (p & Hp & Hv & Hday).
    exists p. split; [exact Hp|]. split; [exact Hday|].
    intros r Hr. rewrite Hv. rewrite Forall_forall in Hall. apply Hall.
    unfold returns. now apply in_map.
Qed.

Lemma bestDay_worstDay_witness :
  exists p,
    In p scenarioC
    /\ bestDay (advancedMetricsOf sqrtMicro scenarioC)
       = Some {| day_date := date p; day_return := return_ p |}
    /\ forall r, In r scenarioC -> return_ r <= return_ p.
Proof.
  apply (bestDay_worstDay sqrtMicro scenarioC). discriminate.
Defined.

Lemma length_filter_le {A} (f : A -> bool) (l : list A) :
  (List.length (filter f l) <= List.length l)%nat.
Proof.
  induction l as [|x l IH]; simpl; [lia|]. destruct (f x); simpl; lia.
Qed.

(** The win rate is a percentage, and the trading days are the points of
    the series. *)
Theorem winRate_bounds (sqrt : Q -> Q) (dailyReturns : list DailyValue) :
  let advanced := advancedMetricsOf sqrt dailyReturns in
  0 <= winRate advanced <= 100
  /\ totalTradingDays advanced == JS.length dailyReturns.
Proof.
  cbv zeta. destruct dailyReturns as [|first rest].
  - cbn. repeat split; lra.
  - destruct (advancedMetricsOf_fields sqrt first rest) as (_ & _ & _ & _ & -> & ->).
    split; [|reflexivity].
    set (returns := map return_ (first :: rest)).
    assert (Hn : 1 <= JS.length returns).
    { unfold JS.length, returns. simpl List.length.
      change 1 with (inject_Z 1). rewrite <- Zle_Qle. lia. }
    assert (Hk : 0 <= JS.length (filter (fun r => JS.gt r 0) returns)).
    { unfold JS.length. change 0 with (inject_Z 0). rewrite <- Zle_Qle. lia. }
    assert (Hkn : JS.length (filter (fun r => JS.gt r 0) returns) <= JS.length returns).
    { unfold JS.length. rewrite <- Zle_Qle.
      pose proof (length_filter_le (fun r => JS.gt r 0) returns). lia. }
    set (k := JS.length (filter (fun r => JS.gt r 0) returns)) in *.
    set (n := JS.length returns) in *.
    assert (Hq : 0 <= k / n <= 1).
    { split.
      - unfold Qdiv. apply Qmult_le_0_compat; [exact Hk|].
        apply Qinv_le_0_compat. lra.
      - apply Qle_shift_div_r; lra. }
    split; lra.
Qed.

(** ** Risk metrics *)

Lemma riskMetricsOf_fields (sqrt : Q -> Q) (first : DailyValue)
  (rest : list DailyValue) :
  let returns := sortedReturns (first :: rest) in
  let risk := riskMetricsOf sqrt (first :: rest) in
  let worstReturns := firstn (Z.to_nat (var95Index returns + 1)) returns in
  let negativeReturns := filter (fun r => JS.lt r 0) returns in
  conditionalValueAtRisk risk
  = (if JS.gt (JS.length worstReturns) 0
     then Some (JS.sum worstReturns / JS.length worstReturns) else None)
  /\ (downsideDeviation risk = None <-> JS.gt (JS.length negativeReturns) 0 = false)
  /\ (downsideDeviation risk = None -> sortinoRatio risk = None).
Proof.
  cbv zeta. unfold riskMetricsOf.
  cbn [conditionalValueAtRisk downsideDeviation sortinoRatio].
  split; [reflexivity|].
  destruct (JS.gt (JS.length (filter (fun r => JS.lt r 0) (sortedReturns (first :: rest)))) 0).
  - split; [split; discriminate | discriminate].
  - split; [split; reflexivity | reflexivity].
Qed.

Lemma sum_from (xs : list Q) :
  forall acc, fold_left (fun sum r => sum + r) xs acc == acc + JS.sum xs.
Proof.
  unfold JS.sum. induction xs as [|x xs IH]; intro acc; simpl.
  - ring.
  - rewrite (IH (acc + x)), (IH (0 + x)). ring.
Qed.

Lemma sum_le (b : Q) (xs : list Q) :
  Forall (fun x => x <= b) xs -> JS.sum xs <= JS.length xs * b.
Proof.
  induction 1 as [|x xs Hx _ IH].
  - unfold JS.sum, JS.length. simpl. unfold inject_Z.
    setoid_replace ((0 # 1) * b) with 0 by ring. apply Qle_refl.
  - unfold JS.sum. simpl. rewrite sum_from.
    unfold JS.length in *. simpl List.length.
    rewrite Nat2Z.inj_succ, <- Z.add_1_r, inject_Z_plus.
    change (inject_Z 1) with 1.
    set (n := inject_Z (Z.of_nat (List.length xs))) in *.
    setoid_replace ((n + 1) * b) with (n * b + b) by ring.
    lra.
Qed.

(** For a series that is not empty the conditional Value-at-Risk is never
    null, and it is at most the 95% percentile it is the tail mean of. *)
Theorem conditionalValueAtRisk_le_percentile (sqrt : Q -> Q)
  (dailyReturns : list DailyValue) :
  dailyReturns <> [] ->
  let returns := sortedReturns dailyReturns in
  exists c b,
    conditionalValueAtRisk (riskMetricsOf sqrt dailyReturns) = Some c
    /\ at_ returns (var95Index returns) = Some b
    /\ c <= b.
Proof.
  intros Hne returns.
  destruct (percentiles_ordered _ Hne) as (a & b & _ & Hb & _).
  fold returns in Hb.
  destruct dailyReturns as [|first rest]; [congruence|].
  destruct (riskMetricsOf_fields sqrt first rest) as (-> & _).
  fold returns.
  assert (Hne' : returns <> []).
  { intro E. apply (f_equal (@List.length _)) in E.
    unfold returns in E. rewrite sortedReturns_length in E. discriminate. }
  destruct (var_indices returns Hne') as [[H0 Hle] Hlt].
  set (k := Z.to_nat (var95Index returns + 1)).
  assert (Hlen : List.length (firstn k returns) = k).
  { apply firstn_length_le. unfold k. lia. }
  assert (Hpos : 0 < JS.length (firstn k returns)).
  { unfold JS.length. rewrite Hlen. change 0 with (inject_Z 0).
    rewrite <- Zlt_Qlt. unfold k. lia. }
  rewrite (proj2 (gt_true _ _) Hpos).
  exists (JS.sum (firstn k returns) / JS.length (firstn k returns)), b.
  split; [reflexivity|]. split; [exact Hb|].
  apply Qle_shift_div_r; [exact Hpos|].
  rewrite Qmult_comm. apply sum_le.
  apply Forall_forall. intros x Hx.
  apply In_nth_error in Hx. destruct Hx as [j Hj].
  assert (Hjk : (j < k)%nat).
  { rewrite <- Hlen. apply nth_error_Some. congruence. }
  rewrite nth_error_firstn in Hj.
  destruct (Nat.ltb_spec j k) as [_|]; [|lia].
  apply (StronglySorted_nth_error returns (Array_sort_sorted _) j
           (Z.to_nat (var95Index returns)));
    [unfold k in Hjk; lia | exact Hj | exact Hb].
Qed.

Lemma conditionalValueAtRisk_le_percentile_witness :
  exists c b,
    conditionalValueAtRisk (riskMetricsOf sqrtMicro rampSeries) = Some c
    /\ at_ (sortedReturns rampSeries) (var95Index (sortedReturns rampSeries)) = Some b
    /\ c <= b.
Proof.
  apply (conditionalValueAtRisk_le_percentile sqrtMicro rampSeries). discriminate.
Defined.

(** For a series that is not empty the downside deviation is null exactly
    when no day has a negative return, and then the Sortino ratio is null
    as well. *)
Theorem downsideDeviation_null_iff (sqrt : Q -> Q) (dailyReturns : list DailyValue) :
  dailyReturns <> [] ->
  let risk := riskMetricsOf sqrt dailyReturns in
  (downsideDeviation risk = None
   <-> forall p, In p dailyReturns -> 0 <= return_ p)
  /\ (downsideDeviation risk = None -> sortinoRatio risk = None).
Proof.
  intros Hne risk. unfold risk.
  destruct dailyReturns as [|first rest]; [congruence|].
  destruct (riskMetricsOf_fields sqrt first rest) as (_ & Hiff & Hsortino).
  cbv zeta in Hiff. split; [|exact Hsortino].
  rewrite Hiff. clear Hiff Hsortino.
  set (returns := sortedReturns (first :: rest)).
  assert (Hperm : Permutation (map return_ (first :: rest)) returns)
    by apply Array_sort_Permutation.
  split.
  - intros Hnone p Hp.
    apply Qnot_lt_le. intro Hneg.
    assert (Hin : In (return_ p) (filter (fun r => JS.lt r 0) returns)).
    { apply filter_In. split.
      - eapply Permutation_in; [exact Hperm | now apply in_map].
      - now apply lt_true. }
    apply gt_false in Hnone. unfold JS.length in Hnone.
    destruct (filter (fun r => JS.lt r 0) returns) as [|x l]; [destruct Hin|].
    simpl List.length in Hnone. change 0 with (inject_Z 0) in Hnone.
    rewrite <- Zle_Qle in Hnone. lia.
  - intros Hall.
    assert (Hnil : filter (fun r => JS.lt r 0) returns = []).
    { destruct (filter (fun r => JS.lt r 0) returns) as [|x l] eqn:E; [reflexivity|].
      exfalso.
      assert (Hx : In x (filter (fun r => JS.lt r 0) returns))
        by (rewrite E; now left).
      apply filter_In in Hx. destruct Hx as [Hx Hneg].
      apply lt_true in Hneg.
      apply (Permutation_in _ (Permutation_sym Hperm)) in Hx.
      apply in_map_iff in Hx. destruct Hx as (p & <- & Hp).
      pose proof (Hall p Hp). lra. }
    rewrite Hnil. reflexivity.
Qed.

Lemma downsideDeviation_null_iff_witness :
  downsideDeviation (riskMetricsOf sqrtMicro flatSeries) = None
  <-> forall p, In p flatSeries -> 0 <= return_ p.
Proof.
  apply (downsideDeviation_null_iff sqrtMicro flatSeries). discriminate.
Defined.

(** ** Metrics aggregator *)

(** The aggregator throws exactly when one of the five calls throws and the
    summary cannot be computed in the [catch] block either; the error is
    then that of the latter call. *)
Theorem getEnhancedPortfolioMetrics_throws_iff (calls : Calls) (e : string) :
  getEnhancedPortfolioMetrics calls = Thrown e
  <-> someCallThrows calls
      /\ call_getPortfolioSummary_in_catch calls = Thrown e.
Proof.
  unfold getEnhancedPortfolioMetrics. split.
  - destruct (Promise_all calls) as [[[[[s t] a] r] b]|e0] eqn:E; [discriminate|].
    intro H. split.
    + destruct (call_getPortfolioSummary calls) eqn:E1;
        [|left; eexists; eassumption].
      destruct (call_calculateTimeBasedPerformance calls) eqn:E2;
        [|right; left; eexists; eassumption].
      destruct (call_calculateAdvancedMetrics calls) eqn:E3;
        [|right; right; left; eexists; eassumption].
      destruct (call_calculateRiskMetrics calls) eqn:E4;
        [|right; right; right; left; eexists; eassumption].
      destruct (call_calculateBenchmarkComparisons calls) eqn:E5;
        [|right; right; right; right; eexists; eassumption].
      unfold Promise_all in E. rewrite E1, E2, E3, E4, E5 in E. discriminate.
    + destruct (call_getPortfolioSummary_in_catch calls); [discriminate|].
      injection H as ->. reflexivity.
  - intros [Hthrow Hcatch].
    destruct (Promise_all_rejects calls Hthrow) as [e0 ->]. now rewrite Hcatch.
Qed.

(** ** Current prices *)

Lemma priceStep_counts (toLowerCase : string -> string)
  (prices : string -> option Q)
  (update : string -> PriceUpdate -> Completion unit)
  (holdings : list Holding.t) :
  forall st,
    let st' := fold_left (priceStep toLowerCase prices update) holdings st in
    (updated st' + failed st'
     = updated st + failed st + List.length holdings)%nat
    /\ (List.length (errors st') + failed st
        = List.length (errors st) + failed st')%nat
    /\ (List.length (written st') + updated st
        = List.length (written st) + updated st')%nat.
Proof.
  induction holdings as [|h holdings IH]; intro st; simpl.
  - repeat split; lia.
  - destruct (IH (priceStep toLowerCase prices update st h)) as (H1 & H2 & H3).
    cbv zeta in *.
    assert (Hstep :
      (updated (priceStep toLowerCase prices update st h)
       + failed (priceStep toLowerCase prices update st h)
       = S (updated st + failed st))%nat
      /\ (List.length (errors (priceStep toLowerCase prices update st h)) + failed st
          = List.length (errors st)
            + failed (priceStep toLowerCase prices update st h))%nat
      /\ (List.length (written (priceStep toLowerCase prices update st h)) + updated st
          = List.length (written st)
            + updated (priceStep toLowerCase prices update st h))%nat).
    { unfold priceStep.
      destruct (prices (toLowerCase (Holding.tokenSymbol h))) as [price|];
        [destruct (update (Holding.id h) (priceUpdateOf h price))|];
        cbn; rewrite ?length_app; simpl; repeat split; lia. }
    destruct Hstep as (S1 & S2 & S3). repeat split; lia.
Qed.

(** Every holding is counted once: when [updateHoldingPrices] returns, the
    updated and the failed holdings add up to the holdings found, every
    updated one was written, and there is one error message per failed
    holding, or a single message when the price fetch threw. *)
Theorem updateHoldingPrices_counts (toLowerCase : string -> string)
  (holdings : list Holding.t) (fetched : Completion (string -> option Q))
  (update : string -> PriceUpdate -> Completion unit) :
  exists stats,
    updateHoldingPrices toLowerCase (Returned holdings) fetched update
    = Returned stats
    /\ (updated stats + failed stats = List.length holdings)%nat
    /\ List.length (written stats) = updated stats
    /\ ((exists prices, fetched = Returned prices) ->
        List.length (errors stats) = failed stats)
    /\ ((exists e, fetched = Thrown e) -> holdings <> [] ->
        updated stats = 0%nat /\ List.length (errors stats) = 1%nat).
Proof.
  destruct holdings as [|h holdings].
  - eexists. split; [reflexivity|]. cbn.
    split; [reflexivity|]. split; [reflexivity|].
    split; [intros _; reflexivity | intros _ Hne; congruence].
  - destruct fetched as [prices|e]; eexists; (split; [reflexivity|]).
    + destruct (priceStep_counts toLowerCase prices update (h :: holdings)
                  {| updated := 0; failed := 0; errors := []; written := [] |})
        as (H1 & H2 & H3).
      cbv zeta in *. cbn [updated failed errors written List.length] in *.
      split; [lia|]. split; [lia|].
      split; [intros _; lia | intros [e He]; discriminate].
    + cbn. split; [reflexivity|]. split; [reflexivity|].
      split; [intros [prices Hp]; discriminate | intros _ _; split; reflexivity].
Qed.

(** What is written for a holding hangs together: an unrealized P&L is
    written only with a current value, and a current value only with a
    current price; the value is amount times price, the P&L is the value
    minus the cost basis, the percentage is the P&L in percent of the cost
    basis. *)
Theorem priceUpdateOf_consistent (holding : Holding.t) (currentPrice : Q) :
  let data := priceUpdateOf holding currentPrice in
  (forall v, pu_currentValue data = Some v ->
     pu_currentPrice data = Some currentPrice
     /\ 0 < currentPrice /\ 0 < Holding.currentAmount holding
     /\ v = Holding.currentAmount holding * currentPrice)
  /\ (forall u, pu_unrealizedPnL data = Some u ->
        exists v c,
          pu_currentValue data = Some v
          /\ Holding.totalCostBasis holding = Some c /\ 0 < c
          /\ u = v - c
          /\ pu_percentageChange data = Some (u / c * 100))
  /\ (pu_unrealizedPnL data = None <-> pu_percentageChange data = None).
Proof.
  cbv zeta. unfold priceUpdateOf.
  destruct (JS.gt currentPrice 0) eqn:Ep;
    destruct (JS.gt (Holding.currentAmount holding) 0) eqn:Ea;
    destruct (Holding.totalCostBasis holding) as [c|];
    try destruct (JS.truthy c && JS.gt c 0) eqn:Ec;
    cbn;
    (split; [|split; [|split; intro; try discriminate; reflexivity]]);
    try (intros x Hx; discriminate).
  all: try (intros x Hx; injection Hx as <-;
            apply gt_true in Ep; apply gt_true in Ea; repeat split; assumption).
  intros x Hx. injection Hx as <-.
  apply andb_prop in Ec. destruct Ec as [_ Ec]. apply gt_true in Ec.
  exists (Holding.currentAmount holding * currentPrice), c.
  repeat split. exact Ec.
Qed.

Lemma or_else_zero (x : Q) : JS.or_else (Some x) 0 == x.
Proof.
  simpl. destruct (JS.truthy x) eqn:E; [reflexivity|].
  apply truthy_false in E. now rewrite E.
Qed.

Lemma summary_totals_from (holdings : list Holding.t) :
  Forall consistentHolding holdings ->
  forall v c u,
    u == v - c ->
    fold_left (fun acc h => acc + JS.or_else (Holding.unrealizedPnL h) 0) holdings u
    == fold_left (fun acc h => acc + JS.or_else (Holding.currentValue h) 0) holdings v
       - fold_left (fun acc h => acc + JS.or_else (Holding.totalCostBasis h) 0) holdings c.
Proof.
  induction 1 as [|h holdings (hv & hc & hu & Ev & Ec & Eu & Hh) _ IH];
    intros v c u Huvc; simpl.
  - exact Huvc.
  - apply IH. rewrite Ev, Ec, Eu, !or_else_zero, Hh, Huvc. ring.
Qed.

(** The summary keeps what the holdings have: over holdings whose unrealized
    P&L is their current value minus their cost basis, the total unrealized
    P&L is the total value minus the total cost basis; and the count is the
    number of holdings. *)
Theorem summaryOf_consistent (holdings : list Holding.t) :
  Forall consistentHolding holdings ->
  Summary.totalUnrealizedPnL (summaryOf holdings)
  == Summary.totalValue (summaryOf holdings)
     - Summary.totalCostBasis (summaryOf holdings)
  /\ Summary.holdingsCount (summaryOf holdings) = JS.length holdings.
Proof.
  intro H. split; [|reflexivity].
  unfold summaryOf. cbn. apply summary_totals_from; [exact H | ring].
Qed.

Lemma summaryOf_consistent_witness :
  Summary.totalUnrealizedPnL
    (summaryOf [Holding.mk "h1" "BTC" 1 (Some 100) (Some 130) (Some 30) None])
  == Summary.totalValue
       (summaryOf [Holding.mk "h1" "BTC" 1 (Some 100) (Some 130) (Some 30) None])
     - Summary.totalCostBasis
         (summaryOf [Holding.mk "h1" "BTC" 1 (Some 100) (Some 130) (Some 30) None]).
Proof.
  apply (summaryOf_consistent
           [Holding.mk "h1" "BTC" 1 (Some 100) (Some 130) (Some 30) None]).
  repeat constructor. exists 130, 100, 30. repeat split.
Defined.

(** ** Time-based performance *)

(** What is pushed for a period. *)
Lemma timeBasedLoop_spec (w : World) (uid : string)
  (getSummary : string -> Completion Summary.t) (remaining : list (string * Z)) :
  forall results out,
    timeBasedLoop w uid getSummary remaining results = Returned out ->
    exists pushed,
      out = results ++ pushed
      /\ map period pushed = map fst remaining
      /\ map startDate pushed = map (fun p => periodStart w (snd p)) remaining
      /\ Forall
           (fun r =>
              endDate r = now w
              /\ estimatePortfolioValueAtDate w uid (startDate r)
                 = Returned (startValue r)
              /\ (exists s, getSummary (period r) = Returned s
                            /\ endValue r = Summary.totalValue s)
              /\ absoluteReturn r = endValue r - startValue r
              /\ percentageReturn r
                 = if JS.gt (startValue r) 0
                   then (absoluteReturn r / startValue r) * 100 else 0)
           pushed.
Proof.
  induction remaining as [|[name days] rest IH]; intros results out H; simpl in H.
  - injection H as <-. exists []. rewrite app_nil_r. repeat split. constructor.
  - destruct (estimatePortfolioValueAtDate w uid (periodStart w days))
      as [startValue|e] eqn:Ev; [|discriminate].
    destruct (getSummary name) as [s|e] eqn:Es; [|discriminate].
    destruct (IH _ _ H) as (pushed & -> & Hnames & Hdates & Hall).
    eexists (_ :: pushed). split; [rewrite <- app_assoc; reflexivity|].
    simpl. rewrite Hnames, Hdates. repeat split.
    constructor; [|exact Hall]. cbn. repeat split; try assumption.
    exists s. split; [exact Es | reflexivity].
Qed.

(** When [calculateTimeBasedPerformance] returns, it returns the six periods
    1D, 7D, 30D, 90D, 1Y and YTD in this order, each ending now, starting
    its number of days before now, valued at its start by the estimator and
    at its end by the summary; the percentage return is 0 when the start
    value is not positive. *)
Theorem calculateTimeBasedPerformance_periods (w : World) (uid : string)
  (startOfYear : Z) (getSummary : string -> Completion Summary.t)
  (results : list TimeBasedPerformance) :
  calculateTimeBasedPerformance w uid startOfYear getSummary = Returned results ->
  map period results
  = ["1D"; "7D"; "30D"; "90D"; "1Y"; "YTD"]%string
  /\ map startDate results
     = map (fun p => periodStart w (snd p)) (periods w startOfYear)
  /\ Forall
       (fun r =>
          endDate r = now w
          /\ estimatePortfolioValueAtDate w uid (startDate r)
             = Returned (startValue r)
          /\ (exists s, getSummary (period r) = Returned s
                        /\ endValue r = Summary.totalValue s)
          /\ absoluteReturn r = endValue r - startValue r
          /\ percentageReturn r
             = if JS.gt (startValue r) 0
               then (absoluteReturn r / startValue r) * 100 else 0)
       results.
Proof.
  intro H. unfold calculateTimeBasedPerformance in H.
  destruct (timeBasedLoop_spec _ _ _ _ _ _ H) as (pushed & -> & Hn & Hd & Hall).
  simpl. repeat split; assumption.
Qed.

Lemma calculateTimeBasedPerformance_periods_witness :
  exists results,
    calculateTimeBasedPerformance worldD "alice" DAY0
      (fun _ => Returned (Summary.mk 6000 5100 900 0 (900 / 5100 * 100) 2))
    = Returned results
    /\ map period results = ["1D"; "7D"; "30D"; "90D"; "1Y"; "YTD"]%string.
Proof.
  eexists. split; [vm_compute; reflexivity|].
  apply (calculateTimeBasedPerformance_periods worldD "alice" DAY0
           (fun _ => Returned (Summary.mk 6000 5100 900 0 (900 / 5100 * 100) 2))).
  vm_compute. reflexivity.
Defined.

Lemma timeBasedLoop_returns_iff (w : World) (uid : string)
  (getSummary : string -> Completion Summary.t) (remaining : list (string * Z)) :
  forall results,
    (exists out, timeBasedLoop w uid getSummary remaining results = Returned out)
    <-> Forall
          (fun p => valued w uid (periodStart w (snd p)) = true
                    /\ exists s, getSummary (fst p) = Returned s)
          remaining.
Proof.
  induction remaining as [|[name days] rest IH]; intro results; simpl.
  - split; [constructor | eexists; reflexivity].
  - unfold valued at 1.
    destruct (estimatePortfolioValueAtDate w uid (periodStart w days))
      as [startValue|e] eqn:Ev.
    + destruct (getSummary name) as [s|e] eqn:Es.
      * rewrite IH. split.
        -- intro H. constructor; [|exact H]. cbn. unfold valued. rewrite Ev, Es.
           split; [reflexivity | eexists; reflexivity].
        -- intro H. now inversion H.
      * split; [intros [out H]; discriminate|].
        intro H. inversion H as [|? ? [_ [s Hs]] _]. cbn in Hs. congruence.
    + split; [intros [out H]; discriminate|].
      intro H. inversion H as [|? ? [Hv _] _]. cbn in Hv.
      unfold valued in Hv. rewrite Ev in Hv. discriminate.
Qed.

(** [calculateTimeBasedPerformance] returns exactly when the valuation at
    the start of each of the six periods returns and so does each call of
    the summary; otherwise it throws, and no period is reported. *)
Theorem calculateTimeBasedPerformance_returns_iff (w : World) (uid : string)
  (startOfYear : Z) (getSummary : string -> Completion Summary.t) :
  (exists results,
      calculateTimeBasedPerformance w uid startOfYear getSummary = Returned results)
  <-> forall name days,
        In (name, days) (periods w startOfYear) ->
        valued w uid (periodStart w days) = true
        /\ exists s, getSummary name = Returned s.
Proof.
  unfold calculateTimeBasedPerformance. rewrite timeBasedLoop_returns_iff.
  rewrite Forall_forall. split.
  - intros H name days Hin. exact (H (name, days) Hin).
  - intros H [name days] Hin. exact (H name days Hin).
Qed.

(** ** Benchmark comparator *)

Lemma benchmarkStep_spec (w : World) (portfolioReturns : list DailyValue)
  (first last : DailyValue) (pr : option Q) (benchmark : string)
  (comparisons comparisons' : list BenchmarkComparison) :
  benchmarkStep w portfolioReturns first last pr (Some comparisons) benchmark
  = Some comparisons' ->
  comparisons' = comparisons
  \/ exists c,
       comparisons' = comparisons ++ [c]
       /\ benchmarkName c = benchmark
       /\ beta c = None /\ correlation c = None
       /\ pr = Some (portfolioReturn c)
       /\ outperformance c = portfolioReturn c - benchmarkReturn c
       /\ alpha c == outperformance c.
Proof.
  unfold benchmarkStep.
  destruct (getHistoricalPrice w benchmark (date first)) as [[sp|]|];
    destruct (getHistoricalPrice w benchmark (date last)) as [[ep|]|];
    try (intro H; injection H as <-; now left).
  destruct (JS.truthy sp && JS.truthy ep && JS.gt sp 0);
    [|intro H; injection H as <-; now left].
  destruct pr as [r|]; [|discriminate].
  cbn. intro H. injection H as <-. right. eexists. split; [reflexivity|].
  cbn. repeat split. ring.
Qed.

(** Every comparison reported carries a null beta and a null correlation,
    so that its alpha is its outperformance, the portfolio return minus the
    benchmark return; and the comparisons are for BTC, for ETH, for both in
    this order, or for none. *)
Theorem benchmarkComparisons_alpha (w : World) (portfolioReturns : list DailyValue)
  (comparisons : list BenchmarkComparison) :
  benchmarkComparisonsOf w portfolioReturns = Some comparisons ->
  Forall
    (fun c => beta c = None /\ correlation c = None
              /\ outperformance c = portfolioReturn c - benchmarkReturn c
              /\ alpha c == outperformance c)
    comparisons
  /\ (map benchmarkName comparisons = []
      \/ map benchmarkName comparisons = ["BTC"%string]
      \/ map benchmarkName comparisons = ["ETH"%string]
      \/ map benchmarkName comparisons = ["BTC"%string; "ETH"%string]).
Proof.
  unfold benchmarkComparisonsOf.
  destruct portfolioReturns as [|first rest].
  { intro H. injection H as <-. split; [constructor | now left]. }
  destruct (lastOf (first :: rest)) as [last|].
  2:{ intro H. injection H as <-. split; [constructor | now left]. }
  cbv zeta. simpl fold_left.
  set (pr := option_map _ _).
  destruct (benchmarkStep w (first :: rest) first last pr (Some []) "BTC")
    as [c1|] eqn:E1.
  2:{ unfold benchmarkStep at 1.
      destruct (getHistoricalPrice w "ETH" (date first)) as [[sp|]|];
        destruct (getHistoricalPrice w "ETH" (date last)) as [[ep|]|];
        try discriminate.
      destruct (JS.truthy sp && JS.truthy ep && JS.gt sp 0); discriminate. }
  intro E2.
  apply benchmarkStep_spec in E1. apply benchmarkStep_spec in E2.
  destruct E1 as [-> | (b1 & -> & N1 & B1 & C1 & _ & O1 & A1)];
    destruct E2 as [-> | (b2 & -> & N2 & B2 & C2 & _ & O2 & A2)]; simpl.
  - split; [constructor | now left].
  - split; [repeat constructor; assumption|]. rewrite N2. right. right. now left.
  - split; [repeat constructor; assumption|]. rewrite N1. right. now left.
  - split; [repeat constructor; assumption|]. rewrite N1, N2. right. right. now right.
Qed.

(** A series with a benchmark quoted at both ends. *)
Lemma benchmarkComparisons_alpha_witness :
  exists comparisons,
    benchmarkComparisonsOf worldD scenarioC = Some comparisons
    /\ Forall
         (fun c => beta c = None /\ correlation c = None
                   /\ outperformance c = portfolioReturn c - benchmarkReturn c
                   /\ alpha c == outperformance c)
         comparisons.
Proof.
  eexists. split; [vm_compute; reflexivity|].
  apply (benchmarkComparisons_alpha worldD scenarioC).
  vm_compute. reflexivity.
Defined.

(** A series that starts at value 0, as that of a user whose first
    transaction is less than a year old, has no finite portfolio return:
    as soon as BTC is quoted at both ends of the series, the comparisons
    hold numbers that are not finite. *)
Theorem benchmarkComparisons_from_zero (w : World) (first : DailyValue)
  (rest : list DailyValue) (last : DailyValue) (startPrice endPrice : Q) :
  lastOf (first :: rest) = Some last ->
  value first == 0 ->
  getHistoricalPrice w "BTC" (date first) = Returned (Some startPrice) ->
  getHistoricalPrice w "BTC" (date last) = Returned (Some endPrice) ->
  0 < startPrice -> ~ endPrice == 0 ->
  benchmarkComparisonsOf w (first :: rest) = None.
Proof.
  intros Hlast Hzero Hsp Hep Hpos Hne.
  unfold benchmarkComparisonsOf. rewrite Hlast. cbv zeta.
  rewrite (div_None _ _ Hzero). simpl fold_left.
  assert (E1 : benchmarkStep w (first :: rest) first last None (Some []) "BTC" = None).
  { unfold benchmarkStep. rewrite Hsp, Hep.
    assert (T1 : JS.truthy startPrice = true) by (apply truthy_true; lra).
    assert (T2 : JS.truthy endPrice = true) by (now apply truthy_true).
    assert (T3 : JS.gt startPrice 0 = true) by (now apply gt_true).
    rewrite T1, T2, T3. reflexivity. }
  simpl option_map. rewrite E1.
  unfold benchmarkStep.
  destruct (getHistoricalPrice w "ETH" (date first)) as [[sp|]|];
    destruct (getHistoricalPrice w "ETH" (date last)) as [[ep|]|];
    try reflexivity.
  destruct (JS.truthy sp && JS.truthy ep && JS.gt sp 0); reflexivity.
Qed.

Lemma benchmarkComparisons_from_zero_witness :
  benchmarkComparisonsOf worldD
    [mkDailyValue DAY0 0 0; mkDailyValue (DAY0 + MS_PER_DAY) 5030 0] = None.
Proof.
  apply (benchmarkComparisons_from_zero worldD (mkDailyValue DAY0 0 0)
           [mkDailyValue (DAY0 + MS_PER_DAY) 5030 0]
           (mkDailyValue (DAY0 + MS_PER_DAY) 5030 0) 30 30);
    try reflexivity; discriminate.
Defined.

(** ** Transaction analytics *)

Lemma TransactionType_eqb_eq (a b : TransactionType) :
  TransactionType_eqb a b = true <-> a = b.
Proof. destruct a, b; simpl; split; congruence. Qed.

Section Counters.
Context {K : Type} (eqb : K -> K -> bool).
Hypothesis eqb_eq : forall a b, eqb a b = true <-> a = b.

Lemma eqb_refl_K (a : K) : eqb a a = true.
Proof. now apply eqb_eq. Qed.

Lemma eqb_neq_K (a b : K) : a <> b -> eqb a b = false.
Proof.
  intro H. destruct (eqb a b) eqn:E; [|reflexivity].
  apply eqb_eq in E. contradiction.
Qed.

(** Counting a key raises its count by one and leaves the others. *)
Lemma countOr0_increment (counts : Counts K) (key k : K) :
  countOr0 eqb (increment eqb key counts) k
  = if eqb key k then S (countOr0 eqb counts k) else countOr0 eqb counts k.
Proof.
  unfold countOr0.
  induction counts as [|[k0 n0] counts IH]; simpl.
  - destruct (eqb key k); reflexivity.
  - destruct (eqb k0 key) eqn:E0; simpl.
    + apply eqb_eq in E0. subst k0. destruct (eqb key k); reflexivity.
    + destruct (eqb k0 k) eqn:E1; [|exact IH].
      apply eqb_eq in E1. subst k0.
      destruct (eqb key k) eqn:E2; [|reflexivity].
      apply eqb_eq in E2. subst key. rewrite eqb_refl_K in E0. discriminate.
Qed.

Lemma countOf_app (c1 c2 : Counts K) (k : K) :
  countOf eqb k (c1 ++ c2)
  = match countOf eqb k c1 with
    | Some n => Some n
    | None => countOf eqb k c2
    end.
Proof.
  induction c1 as [|[k0 n0] c1 IH]; simpl; [reflexivity|].
  destruct (eqb k0 k); [reflexivity | exact IH].
Qed.

Lemma countOr0_ensureCounted (counts : Counts K) (key k : K) :
  countOr0 eqb (ensureCounted eqb counts key) k = countOr0 eqb counts k.
Proof.
  unfold ensureCounted, countOr0.
  destruct (countOf eqb key counts) eqn:E; [reflexivity|].
  rewrite countOf_app. destruct (countOf eqb k counts); [reflexivity|].
  simpl. destruct (eqb key k); reflexivity.
Qed.

Lemma countOf_ensureCounted_present (counts : Counts K) (key k : K) :
  countOf eqb k counts <> None ->
  countOf eqb k (ensureCounted eqb counts key) <> None.
Proof.
  unfold ensureCounted. intro H.
  destruct (countOf eqb key counts); [exact H|].
  rewrite countOf_app. destruct (countOf eqb k counts); congruence.
Qed.

Lemma countOf_ensureCounted_same (counts : Counts K) (key : K) :
  countOf eqb key (ensureCounted eqb counts key) <> None.
Proof.
  unfold ensureCounted. destruct (countOf eqb key counts) eqn:E.
  - rewrite E. discriminate.
  - rewrite countOf_app, E. simpl. rewrite eqb_refl_K. discriminate.
Qed.

Lemma ensureAll (keys : list K) :
  forall counts k,
    (In k keys \/ countOf eqb k counts <> None) ->
    countOf eqb k (fold_left (ensureCounted eqb) keys counts)
    = Some (countOr0 eqb counts k).
Proof.
  induction keys as [|key keys IH]; intros counts k H; simpl.
  - destruct H as [[] | H]. unfold countOr0.
    destruct (countOf eqb k counts); congruence.
  - rewrite IH.
    + now rewrite countOr0_ensureCounted.
    + destruct H as [[-> | H] | H].
      * right. apply countOf_ensureCounted_same.
      * now left.
      * right. now apply countOf_ensureCounted_present.
Qed.
End Counters.

Lemma countOr0_byType (transactions : list LedgerRow.t) (type : TransactionType) :
  forall counts,
    countOr0 TransactionType_eqb
      (fold_left (fun acc tx => increment TransactionType_eqb (LedgerRow.type tx) acc)
         transactions counts) type
    = (countOr0 TransactionType_eqb counts type + occurrences type transactions)%nat.
Proof.
  unfold occurrences.
  induction transactions as [|tx rest IH]; intro counts; simpl; [lia|].
  rewrite IH, (countOr0_increment _ TransactionType_eqb_eq).
  destruct (TransactionType_eqb (LedgerRow.type tx) type); simpl; lia.
Qed.

Lemma occurrences_total (transactions : list LedgerRow.t) :
  (fold_right (fun type acc => occurrences type transactions + acc) 0 allTransactionTypes
   = List.length transactions)%nat.
Proof.
  unfold occurrences, allTransactionTypes.
  induction transactions as [|tx rest IH]; simpl; [reflexivity|].
  simpl in IH. destruct (LedgerRow.type tx); simpl; lia.
Qed.

(** The counts by type cover the ledger: each of the eight types is a key
    of [transactionsByType], with the number of transactions of that type
    as its count, and the eight counts add up to [totalTransactions]. *)
Theorem transactionsByType_partition (transactions : list LedgerRow.t) :
  let analytics := transactionAnalyticsOf transactions in
  (forall type,
      countOf TransactionType_eqb type (transactionsByType analytics)
      = Some (occurrences type transactions))
  /\ totalTransactions analytics
     == inject_Z
          (Z.of_nat
             (fold_right
                (fun type acc =>
                   countOr0 TransactionType_eqb (transactionsByType analytics) type
                   + acc)%nat
                0%nat allTransactionTypes)).
Proof.
  cbv zeta.
  assert (Hby : forall type,
    countOf TransactionType_eqb type (transactionsByType (transactionAnalyticsOf transactions))
    = Some (occurrences type transactions)).
  { intro type. unfold transactionAnalyticsOf.
    destruct transactions as [|first rest].
    - cbn. destruct type; reflexivity.
    - destruct (lastOf (first :: rest)) as [last|] eqn:El.
      + cbn [transactionsByType]. unfold transactionsByTypeOf.
        rewrite (ensureAll _ TransactionType_eqb_eq).
        * rewrite countOr0_byType. reflexivity.
        * left. destruct type; simpl; tauto.
      + exfalso. unfold lastOf in El. simpl in El.
        destruct (rev rest ++ [first]) eqn:E; [|discriminate].
        destruct (rev rest); discriminate. }
  split; [exact Hby|].
  assert (Hsum :
    fold_right
      (fun type acc =>
         countOr0 TransactionType_eqb
           (transactionsByType (transactionAnalyticsOf transactions)) type + acc)%nat
      0%nat allTransactionTypes
    = List.length transactions).
  { rewrite <- (occurrences_total transactions).
    unfold allTransactionTypes, countOr0. simpl. rewrite !Hby. reflexivity. }
  rewrite Hsum. unfold transactionAnalyticsOf.
  destruct transactions as [|first rest]; [reflexivity|].
  destruct (lastOf (first :: rest)) as [last|] eqn:El; [reflexivity|].
  exfalso. unfold lastOf in El. simpl in El.
  destruct (rev rest ++ [first]) eqn:E; [|discriminate].
  destruct (rev rest); discriminate.
Qed.

Lemma atLeastOne_ge_1 (x : Q) : 1 <= atLeastOne x.
Proof.
  unfold atLeastOne. change 1 with (inject_Z 1). rewrite <- Zle_Qle. lia.
Qed.

Lemma Qceiling_inject_Z (z : Z) : Qceiling (inject_Z z) = z.
Proof.
  unfold Qceiling. rewrite <- inject_Z_opp, Qfloor_Z. lia.
Qed.

(** Over a span of [d >= 1] whole days there are no more weeks or months
    than days, and no more months than weeks. *)
Lemma atLeastOne_share (d : Z) (k : Q) :
  (1 <= d)%Z -> 1 <= k ->
  atLeastOne (inject_Z d / k) <= inject_Z d.
Proof.
  intros Hd Hk. unfold atLeastOne. rewrite <- Zle_Qle.
  apply Z.max_lub; [exact Hd|].
  rewrite <- (Qceiling_inject_Z d) at 2. apply Qceiling_resp_le.
  assert (Hd' : 1 <= inject_Z d).
  { change 1 with (inject_Z 1). now rewrite <- Zle_Qle. }
  apply Qle_shift_div_r; [lra|].
  assert (inject_Z d * 1 <= inject_Z d * k).
  { apply Qmult_le_l; lra. }
  lra.
Qed.

Lemma atLeastOne_mono (x y : Q) : x <= y -> atLeastOne x <= atLeastOne y.
Proof.
  intro H. unfold atLeastOne. rewrite <- Zle_Qle.
  apply Z.max_le_compat_l. now apply Qceiling_resp_le.
Qed.

Lemma Qdiv_le_divisor (n a b : Q) :
  0 <= n -> 0 < a -> a <= b -> n / b <= n / a.
Proof.
  intros Hn Ha Hab.
  apply Qle_shift_div_l; [exact Ha|].
  assert (E : n / b * a == n * (a / b)) by (field; lra).
  rewrite E.
  assert (Hq : a / b <= 1) by (apply Qle_shift_div_r; lra).
  assert (n * (a / b) <= n * 1).
  { destruct (Qeq_dec n 0) as [Hz | Hnz].
    - rewrite Hz. lra.
    - apply Qmult_le_l; lra. }
  lra.
Qed.

(** The frequencies are ordered: there are at most as many transactions per
    day as per week, per week as per month, and per month as in all. *)
Theorem transactionFrequency_ordered (transactions : list LedgerRow.t) :
  let analytics := transactionAnalyticsOf transactions in
  daily (transactionFrequency analytics) <= weekly (transactionFrequency analytics)
  /\ weekly (transactionFrequency analytics)
     <= monthly (transactionFrequency analytics)
  /\ monthly (transactionFrequency analytics) <= totalTransactions analytics.
Proof.
  cbv zeta. unfold transactionAnalyticsOf.
  destruct transactions as [|first rest]; [cbn; repeat split; lra|].
  destruct (lastOf (first :: rest)) as [last|]; [|cbn; repeat split; lra].
  cbn [transactionFrequency daily weekly monthly totalTransactions].
  set (n := JS.length (first :: rest)).
  assert (Hn : 0 <= n).
  { unfold n, JS.length. change 0 with (inject_Z 0). rewrite <- Zle_Qle. lia. }
  set (span := inject_Z (LedgerRow.date last - LedgerRow.date first)
               / inject_Z (1000 * 60 * 60 * 24)).
  set (days := atLeastOne span).
  assert (Hdays : exists d, (1 <= d)%Z /\ days = inject_Z d).
  { exists (Z.max 1 (Qceiling span)). split; [lia | reflexivity]. }
  destruct Hdays as [d [Hd Ed]]. clearbody days. subst days.
  assert (Hd' : 1 <= inject_Z d).
  { change 1 with (inject_Z 1). now rewrite <- Zle_Qle. }
  pose proof (atLeastOne_ge_1 (inject_Z d / 7)) as Hw1.
  pose proof (atLeastOne_ge_1 (inject_Z d / 30)) as Hm1.
  assert (Hwd : atLeastOne (inject_Z d / 7) <= inject_Z d)
    by (apply atLeastOne_share; [exact Hd | lra]).
  assert (Hmw : atLeastOne (inject_Z d / 30) <= atLeastOne (inject_Z d / 7)).
  { apply atLeastOne_mono.
    apply Qdiv_le_divisor; lra. }
  repeat split.
  - apply Qdiv_le_divisor; [exact Hn | lra | exact Hwd].
  - apply Qdiv_le_divisor; [exact Hn | lra | exact Hmw].
  - apply Qle_shift_div_r; [lra|].
    assert (n * 1 <= n * atLeastOne (inject_Z d / 30)).
    { destruct (Qeq_dec n 0) as [Hz | Hnz].
      - rewrite Hz. lra.
      - apply Qmult_le_l; lra. }
    lra.
Qed.









